(** * glitchy-span: a shallow embedding of [src/glitchy.ts]

    The widget has four parts, each embedded below from the source:

    - the fragment shader [FRAGMENT_SHADER] (GLSL, over the reals),
    - [makeScene] (camera and quad, over the rationals),
    - [writeText] (a 2D canvas draw, over rational pixel values),
    - [setupAnimation] (the hover driver: two listeners and the frame
      callback [animateScene], over rationals for clock readings and
      intensities).

    Numbers of the source are IEEE doubles (GLSL: mediump floats); they are
    idealised here as exact reals or rationals, and the statements proved on
    them are the ones rounding does not disturb. The driver is embedded a
    second time in [Double], over binary64 itself, for what happens at a
    rounding step. *)

From Stdlib Require Import Reals Psatz ZArith QArith Qreals List Bool String.
From Stdlib Require PrimFloat.
Import ListNotations.

(** ** GLSL built-ins used by the shader *)

Module GLSL.
Local Open Scope R_scope.

Record vec2 : Type := mkVec2 { x : R; y : R }.
Record vec4 : Type := mkVec4 { r : R; g : R; b : R; a : R }.

(** A bound texture, as [texture2D] sees it: a colour per coordinate. *)
Definition sampler2D : Type := vec2 -> vec4.

Definition texture2D (t : sampler2D) (uv : vec2) : vec4 := t uv.

Definition floor (v : R) : R := IZR (Int_part v).

(** [fract(v) = v - floor(v)] *)
Definition fract (v : R) : R := v - floor v.

(** [mod(v, m) = v - m * floor(v / m)] *)
Definition mod_ (v m : R) : R := v - m * floor (v / m).

Definition vadd (u v : vec2) : vec2 := mkVec2 (x u + x v) (y u + y v).
Definition vsub (u v : vec2) : vec2 := mkVec2 (x u - x v) (y u - y v).
Definition vscale (u : vec2) (k : R) : vec2 := mkVec2 (x u * k) (y u * k).

(** [length(v)] *)
Definition length (v : vec2) : R := sqrt (x v * x v + y v * y v).

End GLSL.

(** ** The fragment shader *)

Module Shader.
Import GLSL.
Local Open Scope R_scope.

(** [float segment = floor(uv.y * 8.0);] *)
Definition segment (uv : vec2) : R := floor (y uv * 8).

(** [float randomValue = fract(sin(segment * 1000. + glitchIntensity) * 1000.);] *)
Definition randomValue (uv : vec2) (glitchIntensity : R) : R :=
  fract (sin (segment uv * 1000 + glitchIntensity) * 1000).

(** [vec2 offset = vec2(randomValue * 0.03, 0.0) * glitchIntensity;] *)
Definition offset (uv : vec2) (glitchIntensity : R) : vec2 :=
  vscale (mkVec2 (randomValue uv glitchIntensity * (3 / 100)) 0) glitchIntensity.

(** [void main()] of [FRAGMENT_SHADER]; the result is [gl_FragColor]. *)
Definition main (tDiffuse : sampler2D) (glitchIntensity : R) (vUv : vec2) : vec4 :=
  let uv := vUv in
  let baseState := texture2D tDiffuse uv in
  if Rle_dec glitchIntensity 0 then baseState
  else
    let offset := offset uv glitchIntensity in
    let redGlitch := texture2D tDiffuse (vadd uv offset) in
    let greenGlitch := texture2D tDiffuse (vsub uv offset) in
    let blueGlitch := texture2D tDiffuse uv in
    let m := mod_ (segment uv) 3 in
    if Req_dec_T m 0 then
      mkVec4 (r redGlitch) (g greenGlitch) (b baseState) (a redGlitch + a greenGlitch)
    else if Req_dec_T m 1 then
      mkVec4 (r baseState) (g greenGlitch) (b blueGlitch) (a baseState + a greenGlitch)
    else
      mkVec4 (r redGlitch) (g baseState) (b blueGlitch) (a redGlitch + a baseState).

(** The claimed monotonicity of the displacement, for one coordinate. *)
Definition offset_monotone_at (uv : vec2) : Prop :=
  forall i1 i2 : R, 0 < i1 -> i1 <= i2 ->
    length (offset uv i1) <= length (offset uv i2).

End Shader.

(** ** Scene assembly *)

Module Scene.
Local Open Scope Q_scope.

(** [new THREE.PerspectiveCamera(fov, aspect, near, far)]: [fov] is the
    vertical field of view in degrees; the camera looks down the negative
    z axis from [position]. *)
Record PerspectiveCamera : Type := mkCamera {
  fov : Q;
  aspect : Q;
  near : Q;
  far : Q;
  position_z : Q
}.

(** [new THREE.PlaneGeometry(width, height)]: a rectangle in the plane
    [z = 0], centred at the origin. *)
Record PlaneGeometry : Type := mkPlane {
  width : Q;
  height : Q
}.

(** The scalar part of [shaderUniforms] and the material and renderer
    options [makeScene] sets. *)
Record SceneParts : Type := mkScene {
  camera : PerspectiveCamera;
  geometry : PlaneGeometry;
  mesh_z : Q;
  glitchIntensity : Q;
  transparent : bool;
  rendererAlpha : bool;
  rendererSize : Z * Z
}.

(** [makeScene(wrapper, textCanvas)], as a function of
    [wrapper.offsetWidth] and [wrapper.offsetHeight]. *)
Definition makeScene (offsetWidth offsetHeight : Z) : SceneParts :=
  let aspectRatio := inject_Z offsetWidth / inject_Z offsetHeight in
  {| camera := {| fov := 90; aspect := aspectRatio; near := 1 # 100; far := 10;
                  position_z := 1 |};
     geometry := {| width := 2 * aspectRatio; height := 2 |};
     mesh_z := 0;
     glitchIntensity := 0;
     transparent := true;
     rendererAlpha := true;
     rendererSize := (offsetWidth, offsetHeight) |}.

(** What a perspective camera sees at distance [d] in front of it: a
    rectangle of height [2 d tan(fov/2)] and of width [aspect] times that. *)
Definition frustumHeight (c : PerspectiveCamera) (d : R) : R :=
  (2 * d * tan (Q2R (fov c) / 2 * (PI / 180)))%R.

Definition frustumWidth (c : PerspectiveCamera) (d : R) : R :=
  (Q2R (aspect c) * frustumHeight c d)%R.

(** Distance from the camera to the quad along the view axis. *)
Definition viewDistance (s : SceneParts) : Q := position_z (camera s) - mesh_z s.

End Scene.

(** ** The text rasterizer *)

Module Canvas.
Local Open Scope Q_scope.

(** A CSS colour, straight alpha, components in [0, 1]. *)
Record Color : Type := mkColor { cr : Q; cg : Q; cb : Q; ca : Q }.

(** A bitmap pixel, premultiplied alpha. *)
Record Pixel : Type := mkPixel { pr : Q; pg : Q; pb : Q; pa : Q }.

Definition Bitmap : Type := Z -> Z -> Pixel.

Inductive TextAlign : Type := AlignStart | AlignEnd | AlignLeft | AlignRight | AlignCenter.
Inductive TextBaseline : Type :=
  BaseAlphabetic | BaseTop | BaseHanging | BaseMiddle | BaseIdeographic | BaseBottom.

Record Context2D : Type := mkContext {
  fillStyle : Color;
  font : string;
  textAlign : TextAlign;
  textBaseline : TextBaseline
}.

Record HTMLCanvasElement : Type := mkCanvas {
  width : Z;
  height : Z;
  context : Context2D;
  bitmap : Bitmap
}.

(** The four properties [writeText] reads from [getComputedStyle]. *)
Record ComputedStyle : Type := mkStyle {
  fontWeight : string;
  fontSize : string;
  fontFamily : string;
  color : Color
}.

(** The host's glyph rasterizer: for a font, alignment, baseline, text and
    anchor point, the coverage in [0, 1] of each pixel. *)
Definition Rasterizer : Type :=
  string -> TextAlign -> TextBaseline -> string -> Q -> Q -> Z -> Z -> Q.

(** The paint a fill of colour [c] puts on a pixel it covers by [cov]. *)
Definition paint (c : Color) (cov : Q) : Pixel :=
  let sa := ca c * cov in
  {| pr := cr c * sa; pg := cg c * sa; pb := cb c * sa; pa := sa |}.

(** The canvas default compositing operation, [source-over]. *)
Definition sourceOver (src dst : Pixel) : Pixel :=
  {| pr := pr src + pr dst * (1 - pa src);
     pg := pg src + pg dst * (1 - pa src);
     pb := pb src + pb dst * (1 - pa src);
     pa := pa src + pa dst * (1 - pa src) |}.

Definition inside (w h px py : Z) : bool :=
  ((0 <=? px) && (px <? w) && (0 <=? py) && (py <? h))%Z.

(** [context.fillText(text, x, y)]: composites the glyphs over what the
    bitmap already holds. *)
Definition fillText (raster : Rasterizer) (w h : Z) (ctx : Context2D) (bm : Bitmap)
    (text : string) (x y : Q) : Bitmap :=
  fun px py =>
    if inside w h px py then
      sourceOver
        (paint (fillStyle ctx)
               (raster (font ctx) (textAlign ctx) (textBaseline ctx) text x y px py))
        (bm px py)
    else bm px py.

(** [writeText(textCanvas, textElement, text)]; [style] is
    [getComputedStyle(textElement)]. *)
Definition writeText (raster : Rasterizer) (textCanvas : HTMLCanvasElement)
    (style : ComputedStyle) (text : string) : HTMLCanvasElement :=
  let ctx :=
    {| fillStyle := color style;
       font := (fontWeight style ++ " " ++ fontSize style ++ " " ++ fontFamily style)%string;
       textAlign := AlignCenter;
       textBaseline := BaseMiddle |} in
  {| width := width textCanvas;
     height := height textCanvas;
     context := ctx;
     bitmap := fillText raster (width textCanvas) (height textCanvas) ctx
                 (bitmap textCanvas) text
                 (inject_Z (width textCanvas) / 2) (inject_Z (height textCanvas) / 2) |}.

Definition pixel_eq (p q : Pixel) : Prop :=
  pr p == pr q /\ pg p == pg q /\ pb p == pb q /\ pa p == pa q.

(** The alpha [writeText] paints on pixel [(px, py)]. *)
Definition sourceAlpha (raster : Rasterizer) (c : HTMLCanvasElement)
    (style : ComputedStyle) (text : string) (px py : Z) : Q :=
  pa (paint (color style)
        (raster (fontWeight style ++ " " ++ fontSize style ++ " " ++ fontFamily style)%string
           AlignCenter BaseMiddle text
           (inject_Z (width c) / 2) (inject_Z (height c) / 2) px py)).

(** A blank canvas: transparent black everywhere. *)
Definition blank (w h : Z) : HTMLCanvasElement :=
  {| width := w; height := h;
     context := {| fillStyle := mkColor 0 0 0 1; font := "10px sans-serif"%string;
                   textAlign := AlignStart; textBaseline := BaseAlphabetic |};
     bitmap := fun _ _ => mkPixel 0 0 0 0 |}.

(** A rasterizer with an antialiased edge: pixel [(0,0)] is fully inside the
    glyph, pixel [(1,0)] half covered, the rest untouched. *)
Definition edgeRaster : Rasterizer :=
  fun _ _ _ _ _ _ px py =>
    if ((px =? 0) && (py =? 0))%Z then 1
    else if ((px =? 1) && (py =? 0))%Z then 1 # 2
    else 0.

Definition blackText : ComputedStyle :=
  {| fontWeight := "400"%string; fontSize := "16px"%string;
     fontFamily := "serif"%string; color := mkColor 0 0 0 1 |}.

(** [makeTextCanvas(wrapper)], as a function of [wrapper.offsetWidth] and
    [wrapper.offsetHeight]: a new canvas element of that size, which starts
    with the default drawing state and a transparent black bitmap. *)
Definition makeTextCanvas (offsetWidth offsetHeight : Z) : HTMLCanvasElement :=
  {| width := offsetWidth;
     height := offsetHeight;
     context := {| fillStyle := mkColor 0 0 0 1; font := "10px sans-serif"%string;
                   textAlign := AlignStart; textBaseline := BaseAlphabetic |};
     bitmap := fun _ _ => mkPixel 0 0 0 0 |}.

End Canvas.

(** ** The hover animation driver *)

Module Driver.
Local Open Scope Q_scope.

(** [ANIMATION_CONFIG.glitchIntensityMod] *)
Definition glitchIntensityMod : Q := 1 # 2.

(** What one run of [animateScene] reads from its environment: the two
    readings of [performance.now()] (before the accumulation and at the end
    of the callback) and the value [Math.random()] returns if it is called. *)
Record FrameInput : Type := mkFrame {
  nowAccumulate : Q;
  nowEnd : Q;
  random : Q
}.

(** The variables [setupAnimation] closes over, the number of
    [animateScene] callbacks waiting in [requestAnimationFrame], and the
    state [Host] the two callbacks [updateIntensity] and [render] act on. *)
Record State (Host : Type) : Type := mkState {
  isHovered : bool;
  frames : Z;
  hoverDuration : Q;
  lastFrame : Q;
  pendingFrames : nat;
  host : Host
}.

Arguments mkState {Host}.
Arguments isHovered {Host}.
Arguments frames {Host}.
Arguments hoverDuration {Host}.
Arguments lastFrame {Host}.
Arguments pendingFrames {Host}.
Arguments host {Host}.

Section SetupAnimation.

Context {Host : Type}.
Variable updateIntensity : Q -> Host -> Host.
Variable render : Host -> Host.

(** The [mouseover] listener: [if (!isHovered) frames = 0; isHovered = true;] *)
Definition onMouseover (s : State Host) : State Host :=
  {| isHovered := true;
     frames := if negb (isHovered s) then 0%Z else frames s;
     hoverDuration := hoverDuration s;
     lastFrame := lastFrame s;
     pendingFrames := pendingFrames s;
     host := host s |}.

(** The [mouseout] listener: [isHovered = false; updateIntensity(0);] *)
Definition onMouseout (s : State Host) : State Host :=
  {| isHovered := false;
     frames := frames s;
     hoverDuration := hoverDuration s;
     lastFrame := lastFrame s;
     pendingFrames := pendingFrames s;
     host := updateIntensity 0 (host s) |}.

(** The argument of [updateIntensity] on a step that leaves the counter at
    [frames]: [frames < 5 ? (Math.random() + 1) * glitchIntensityMod : 0] *)
Definition stepIntensity (frames : Z) (random : Q) : Q :=
  if (frames <? 5)%Z then (random + 1) * glitchIntensityMod else 0.

(** [function animateScene()] *)
Definition animateScene (i : FrameInput) (s : State Host) : State Host :=
  (* requestAnimationFrame(animateScene); *)
  let pending := S (pendingFrames s) in
  let s1 :=
    if isHovered s && (frames s <? 7)%Z then
      let hoverDuration1 := hoverDuration s + (nowAccumulate i - lastFrame s) in
      if Qle_bool 50 hoverDuration1 then
        let frames1 := (frames s + 1)%Z in
        {| isHovered := isHovered s;
           frames := frames1;
           hoverDuration := 0;
           lastFrame := lastFrame s;
           pendingFrames := pending;
           host := updateIntensity (stepIntensity frames1 (random i)) (host s) |}
      else
        {| isHovered := isHovered s;
           frames := frames s;
           hoverDuration := hoverDuration1;
           lastFrame := lastFrame s;
           pendingFrames := pending;
           host := host s |}
    else
      {| isHovered := isHovered s;
         frames := frames s;
         hoverDuration := hoverDuration s;
         lastFrame := lastFrame s;
         pendingFrames := pending;
         host := host s |} in
  {| isHovered := isHovered s1;
     frames := frames s1;
     hoverDuration := hoverDuration s1;
     lastFrame := nowEnd i;
     pendingFrames := pendingFrames s1;
     host := render (host s1) |}.

(** The host's frame scheduler runs one waiting callback, if there is one. *)
Definition runFrame (i : FrameInput) (s : State Host) : State Host :=
  match pendingFrames s with
  | O => s
  | S n =>
      animateScene i
        {| isHovered := isHovered s;
           frames := frames s;
           hoverDuration := hoverDuration s;
           lastFrame := lastFrame s;
           pendingFrames := n;
           host := host s |}
  end.

(** [setupAnimation(wrapper, updateIntensity, render)]: [t0] is the reading
    of [performance.now()] that initialises [lastFrame], [t1] the one the
    first, direct call of [animateScene] takes. *)
Definition setupAnimation (t0 t1 : Q) (h : Host) : State Host :=
  animateScene (mkFrame t1 t1 0)
    {| isHovered := false;
       frames := 0;
       hoverDuration := 0;
       lastFrame := t0;
       pendingFrames := 0;
       host := h |}.

End SetupAnimation.

(** The part of the widget the callbacks of the [GlitchySpan] constructor
    touch. [intensityWrites] and [renderCount] are traces kept for the
    statements below: the arguments of every call of [updateIntensity],
    oldest first, and the number of calls of [render]. [textureSwaps] counts
    the [updateMesh] calls. *)
Record Widget : Type := mkWidget {
  glitchIntensity : Q;
  intensityWrites : list Q;
  renderCount : nat;
  textureSwaps : nat
}.

(** [planeMesh.material.uniforms.glitchIntensity.value = value] *)
Definition updateIntensity (value : Q) (w : Widget) : Widget :=
  {| glitchIntensity := value;
     intensityWrites := intensityWrites w ++ [value];
     renderCount := renderCount w;
     textureSwaps := textureSwaps w |}.

(** [renderer.render(scene, camera)] *)
Definition render (w : Widget) : Widget :=
  {| glitchIntensity := glitchIntensity w;
     intensityWrites := intensityWrites w;
     renderCount := S (renderCount w);
     textureSwaps := textureSwaps w |}.

(** The constructor's own [mouseover] and [mouseleave] listener:
    [writeText(...); updateMesh(planeMesh, textCanvas);] binds a new texture. *)
Definition refreshTexture (w : Widget) : Widget :=
  {| glitchIntensity := glitchIntensity w;
     intensityWrites := intensityWrites w;
     renderCount := renderCount w;
     textureSwaps := S (textureSwaps w) |}.

Definition onHost (f : Widget -> Widget) (s : State Widget) : State Widget :=
  {| isHovered := isHovered s;
     frames := frames s;
     hoverDuration := hoverDuration s;
     lastFrame := lastFrame s;
     pendingFrames := pendingFrames s;
     host := f (host s) |}.

Inductive Event : Type :=
| Mouseover
| Mouseout
| Mouseleave
| AnimationFrame (i : FrameInput).

(** Listeners run in the order they were added to [wrapper]. *)
Definition dispatch (e : Event) (s : State Widget) : State Widget :=
  match e with
  | Mouseover => onHost refreshTexture (onMouseover s)
  | Mouseout => onMouseout updateIntensity s
  | Mouseleave => onHost refreshTexture s
  | AnimationFrame i => runFrame updateIntensity render i s
  end.

Definition run (es : list Event) (s : State Widget) : State Widget :=
  fold_left (fun s e => dispatch e s) es s.

(** The widget as [makeScene] leaves it, before [setupAnimation]. *)
Definition freshWidget : Widget :=
  {| glitchIntensity := Scene.glitchIntensity (Scene.makeScene 1 1);
     intensityWrites := [];
     renderCount := 0;
     textureSwaps := 0 |}.

(** The state when the constructor returns. *)
Definition initial (t0 t1 : Q) : State Widget :=
  setupAnimation updateIntensity render t0 t1 freshWidget.

(** Frames that each find at least 50ms elapsed since the frame before
    ([last] is the end of the previous frame). *)
Fixpoint spaced (last : Q) (fs : list FrameInput) : Prop :=
  match fs with
  | [] => True
  | i :: rest => last + 50 <= nowAccumulate i /\ spaced (nowEnd i) rest
  end.

Definition validRandom (i : FrameInput) : Prop := 0 <= random i < 1.

Definition validEvent (e : Event) : Prop :=
  match e with
  | AnimationFrame i => validRandom i
  | _ => True
  end.

Definition nonzero (v : Q) : bool := negb (Qeq_bool v 0).

(** The intensity of a glitch pulse. *)
Definition pulse (i : FrameInput) : Q := (random i + 1) * glitchIntensityMod.

(** The writes a run of due frames makes when it starts with the counter
    at [f]. *)
Fixpoint expectedWrites (f : Z) (fs : list FrameInput) : list Q :=
  match fs with
  | [] => []
  | i :: rest =>
      if (f <? 7)%Z then stepIntensity (f + 1) (random i) :: expectedWrites (f + 1) rest
      else []
  end.

(** Hovered, three steps into the ramp. *)
Definition midRamp : State Widget :=
  run [Mouseover;
       AnimationFrame (mkFrame 100 100 0);
       AnimationFrame (mkFrame 200 200 0);
       AnimationFrame (mkFrame 300 300 0)] (initial 0 0).

(** The counter is within 0..7 and exactly one frame callback waits. *)
Definition counterInv (s : State Widget) : Prop :=
  (0 <= frames s <= 7)%Z /\ pendingFrames s = 1%nat.

(** The values the uniform takes: 0, or a pulse in [0.5, 1]. *)
Definition intensityOk (v : Q) : Prop := v = 0 \/ (1 # 2 <= v /\ v <= 1).

Definition widgetOk (w : Widget) : Prop :=
  intensityOk (glitchIntensity w) /\ Forall intensityOk (intensityWrites w).

(** A hover that lasts eight frames, 100ms apart. *)
Definition hoverFrames : list FrameInput :=
  [mkFrame 100 100 0; mkFrame 200 200 (1 # 2); mkFrame 300 300 (1 # 4);
   mkFrame 400 400 (3 # 4); mkFrame 500 500 (1 # 2); mkFrame 600 600 (1 # 2);
   mkFrame 700 700 (1 # 2); mkFrame 800 800 (1 # 2)].

Definition isFrame (e : Event) : bool :=
  match e with AnimationFrame _ => true | _ => false end.

(** The events whose listener redraws the label and swaps the texture. *)
Definition isRefresh (e : Event) : bool :=
  match e with Mouseover | Mouseleave => true | _ => false end.

(** The clock does not run backwards between the end of one frame callback
    and the first reading of the next ([last] is the end of the previous
    callback). *)
Fixpoint clockOk (last : Q) (es : list Event) : Prop :=
  match es with
  | [] => True
  | AnimationFrame i :: rest => last <= nowAccumulate i /\ clockOk (nowEnd i) rest
  | _ :: rest => clockOk last rest
  end.

(** Two states that differ at most in the number of texture swaps. *)
Definition sameButSwaps (s1 s2 : State Widget) : Prop :=
  isHovered s1 = isHovered s2 /\ frames s1 = frames s2 /\
  hoverDuration s1 = hoverDuration s2 /\ lastFrame s1 = lastFrame s2 /\
  pendingFrames s1 = pendingFrames s2 /\
  glitchIntensity (host s1) = glitchIntensity (host s2) /\
  intensityWrites (host s1) = intensityWrites (host s2) /\
  renderCount (host s1) = renderCount (host s2).

(** Outside the ramp the intensity is 0. *)
Definition quietInv (s : State Widget) : Prop :=
  isHovered s = false \/ frames s = 0%Z \/ (5 <= frames s)%Z ->
  glitchIntensity (host s) = 0.

End Driver.

(** ** The hover driver in double precision *)

(** [setupAnimation] once more, over the numbers the source computes with:
    IEEE binary64, the kernel's primitive floats. Comparisons are the
    source's ([>=] is [<=?] with the sides swapped) and so is the order of
    the operations; the counter [frames] only ever holds 0..7 and stays an
    integer. *)
Module Double.
Import PrimFloat.
Local Open Scope float_scope.

(** [ANIMATION_CONFIG.glitchIntensityMod] *)
Definition glitchIntensityMod : float := 0.5.

Record FrameInput : Type := mkFrame {
  nowAccumulate : float;
  nowEnd : float;
  random : float
}.

Record Widget : Type := mkWidget {
  glitchIntensity : float;
  intensityWrites : list float;
  renderCount : nat;
  textureSwaps : nat
}.

Record State : Type := mkState {
  isHovered : bool;
  frames : Z;
  hoverDuration : float;
  lastFrame : float;
  pendingFrames : nat;
  host : Widget
}.

(** [planeMesh.material.uniforms.glitchIntensity.value = value] *)
Definition updateIntensity (value : float) (w : Widget) : Widget :=
  {| glitchIntensity := value;
     intensityWrites := intensityWrites w ++ [value];
     renderCount := renderCount w;
     textureSwaps := textureSwaps w |}.

(** [renderer.render(scene, camera)] *)
Definition render (w : Widget) : Widget :=
  {| glitchIntensity := glitchIntensity w;
     intensityWrites := intensityWrites w;
     renderCount := S (renderCount w);
     textureSwaps := textureSwaps w |}.

(** [writeText(...); updateMesh(planeMesh, textCanvas);] *)
Definition refreshTexture (w : Widget) : Widget :=
  {| glitchIntensity := glitchIntensity w;
     intensityWrites := intensityWrites w;
     renderCount := renderCount w;
     textureSwaps := S (textureSwaps w) |}.

(** [if (!isHovered) frames = 0; isHovered = true;] *)
Definition onMouseover (s : State) : State :=
  {| isHovered := true;
     frames := if negb (isHovered s) then 0%Z else frames s;
     hoverDuration := hoverDuration s;
     lastFrame := lastFrame s;
     pendingFrames := pendingFrames s;
     host := host s |}.

(** [isHovered = false; updateIntensity(0);] *)
Definition onMouseout (s : State) : State :=
  {| isHovered := false;
     frames := frames s;
     hoverDuration := hoverDuration s;
     lastFrame := lastFrame s;
     pendingFrames := pendingFrames s;
     host := updateIntensity 0 (host s) |}.

(** [frames < 5 ? (Math.random() + 1) * ANIMATION_CONFIG.glitchIntensityMod : 0] *)
Definition stepIntensity (frames : Z) (random : float) : float :=
  if (frames <? 5)%Z then (random + 1) * glitchIntensityMod else 0.

(** [function animateScene()] *)
Definition animateScene (i : FrameInput) (s : State) : State :=
  (* requestAnimationFrame(animateScene); *)
  let pending := S (pendingFrames s) in
  let s1 :=
    if isHovered s && (frames s <? 7)%Z then
      let hoverDuration1 := hoverDuration s + (nowAccumulate i - lastFrame s) in
      if 50 <=? hoverDuration1 then
        let frames1 := (frames s + 1)%Z in
        {| isHovered := isHovered s;
           frames := frames1;
           hoverDuration := 0;
           lastFrame := lastFrame s;
           pendingFrames := pending;
           host := updateIntensity (stepIntensity frames1 (random i)) (host s) |}
      else
        {| isHovered := isHovered s;
           frames := frames s;
           hoverDuration := hoverDuration1;
           lastFrame := lastFrame s;
           pendingFrames := pending;
           host := host s |}
    else
      {| isHovered := isHovered s;
         frames := frames s;
         hoverDuration := hoverDuration s;
         lastFrame := lastFrame s;
         pendingFrames := pending;
         host := host s |} in
  {| isHovered := isHovered s1;
     frames := frames s1;
     hoverDuration := hoverDuration s1;
     lastFrame := nowEnd i;
     pendingFrames := pendingFrames s1;
     host := render (host s1) |}.

(** The host's frame scheduler runs one waiting callback, if there is one. *)
Definition runFrame (i : FrameInput) (s : State) : State :=
  match pendingFrames s with
  | O => s
  | S n =>
      animateScene i
        {| isHovered := isHovered s;
           frames := frames s;
           hoverDuration := hoverDuration s;
           lastFrame := lastFrame s;
           pendingFrames := n;
           host := host s |}
  end.

(** [setupAnimation(wrapper, updateIntensity, render)] on the widget as
    [makeScene] leaves it ([glitchIntensity: { value: 0.0 }]). *)
Definition initial (t0 t1 : float) : State :=
  animateScene (mkFrame t1 t1 0)
    {| isHovered := false;
       frames := 0;
       hoverDuration := 0;
       lastFrame := t0;
       pendingFrames := 0;
       host := {| glitchIntensity := 0; intensityWrites := [];
                  renderCount := 0; textureSwaps := 0 |} |}.

Inductive Event : Type :=
| Mouseover
| Mouseout
| Mouseleave
| AnimationFrame (i : FrameInput).

Definition onHost (f : Widget -> Widget) (s : State) : State :=
  {| isHovered := isHovered s;
     frames := frames s;
     hoverDuration := hoverDuration s;
     lastFrame := lastFrame s;
     pendingFrames := pendingFrames s;
     host := f (host s) |}.

(** Listeners run in the order they were added to [wrapper]. *)
Definition dispatch (e : Event) (s : State) : State :=
  match e with
  | Mouseover => onHost refreshTexture (onMouseover s)
  | Mouseout => onMouseout s
  | Mouseleave => onHost refreshTexture s
  | AnimationFrame i => runFrame i s
  end.

Definition run (es : list Event) (s : State) : State :=
  fold_left (fun s e => dispatch e s) es s.

(** The time a run of frames adds up when none of them steps, summed as the
    code sums it: each frame adds, rounded, the rounded gap from the end of
    the previous callback to its own first clock reading. *)
Fixpoint accumulated (acc last : float) (fs : list FrameInput) : float :=
  match fs with
  | [] => acc
  | i :: rest => accumulated (acc + (nowAccumulate i - last)) (nowEnd i) rest
  end.

(** On every frame of the run the code's test [hoverDuration >= 50] fails. *)
Fixpoint waiting (acc last : float) (fs : list FrameInput) : Prop :=
  match fs with
  | [] => True
  | i :: rest =>
      (50 <=? acc + (nowAccumulate i - last)) = false /\
      waiting (acc + (nowAccumulate i - last)) (nowEnd i) rest
  end.

(** The largest double below 1, [1 - 2^-53]. *)
Definition belowOne : float := 0x1.fffffffffffffp-1.

End Double.

(** ** Facts about the GLSL built-ins *)

Section GLSLFacts.
Import GLSL.
Local Open Scope R_scope.

Lemma floor_IZR (k : Z) : floor (IZR k) = IZR k.
Proof.
  unfold floor. f_equal. symmetry. apply Int_part_spec. lra.
Qed.

Lemma fract_range (v : R) : 0 <= fract v < 1.
Proof.
  unfold fract, floor. destruct (base_fp v) as [H0 H1].
  unfold frac_part in H0, H1. lra.
Qed.

Lemma fract_IZR (k : Z) : fract (IZR k) = 0.
Proof. unfold fract. rewrite floor_IZR. lra. Qed.

Lemma fract_half (k : Z) : fract (IZR k + 1 / 2) = 1 / 2.
Proof.
  unfold fract, floor.
  replace (Int_part (IZR k + 1 / 2)) with k; [lra|].
  apply Int_part_spec. lra.
Qed.

(** On a whole number GLSL's [mod] by 3 is the integer remainder. *)
Lemma mod_3_IZR (k : Z) : mod_ (IZR k) 3 = IZR (k mod 3).
Proof.
  unfold mod_, floor.
  replace (Int_part (IZR k / 3)) with (k / 3)%Z.
  - rewrite (Z.div_mod k 3) at 1 by lia.
    rewrite plus_IZR, mult_IZR. lra.
  - apply Int_part_spec.
    pose proof (Z.div_mod k 3 ltac:(lia)) as E.
    pose proof (Z.mod_pos_bound k 3 ltac:(lia)) as [B0 B1].
    assert (Ek : IZR k = 3 * IZR (k / 3) + IZR (k mod 3)).
    { rewrite E at 1. rewrite plus_IZR, mult_IZR. lra. }
    apply IZR_le in B0. apply IZR_lt in B1.
    split; lra.
Qed.

Lemma length_x_only (v : R) : 0 <= v -> length (mkVec2 v 0) = v.
Proof.
  intros Hv. unfold length. simpl.
  replace (v * v + 0 * 0) with (v * v) by lra.
  now apply sqrt_square.
Qed.

End GLSLFacts.

(** ** The fragment shader: identity pass, recombination, displacement *)

Section ShaderFacts.
Import GLSL.
Local Open Scope R_scope.

Lemma segment_whole (uv : vec2) : Shader.segment uv = IZR (Int_part (y uv * 8)).
Proof. reflexivity. Qed.

Lemma offset_components (uv : vec2) (gi : R) :
  Shader.offset uv gi =
  mkVec2 (Shader.randomValue uv gi * (3 / 100) * gi) (0 * gi).
Proof. reflexivity. Qed.

Lemma offset_length (uv : vec2) (gi : R) :
  0 <= gi ->
  length (Shader.offset uv gi) = Shader.randomValue uv gi * (3 / 100) * gi.
Proof.
  intros Hgi. rewrite offset_components.
  replace (0 * gi) with 0 by lra.
  apply length_x_only.
  pose proof (fract_range (sin (Shader.segment uv * 1000 + gi) * 1000)) as [H0 _].
  unfold Shader.randomValue. nra.
Qed.

(** C5. With [glitchIntensity <= 0] the shader is an identity pass: the
    fragment colour is the texture sample at [uv], for every [uv] and every
    bound texture. *)
Theorem shader_identity_when_off (tDiffuse : sampler2D) (gi : R) (uv : vec2) :
  gi <= 0 -> Shader.main tDiffuse gi uv = texture2D tDiffuse uv.
Proof.
  intros Hgi. unfold Shader.main.
  destruct (Rle_dec gi 0) as [_ | Hn]; [reflexivity | contradiction].
Qed.

Lemma shader_identity_when_off_witness :
  0 <= 0 /\
  Shader.main (fun uv => mkVec4 (x uv) (y uv) 1 1) 0 (mkVec2 (1 / 4) (3 / 4)) =
  texture2D (fun uv => mkVec4 (x uv) (y uv) 1 1) (mkVec2 (1 / 4) (3 / 4)).
Proof.
  split; [lra | apply shader_identity_when_off; lra].
Defined.

(** C6. With [glitchIntensity > 0] the output is chosen by
    [segment mod 3], [segment = floor(uv.y * 8)]: case 0 takes red from the
    [+offset] sample, green from the [-offset] sample, blue from the
    unshifted one and adds the two shifted alphas; case 1 takes red and blue
    unshifted, green from [-offset], alpha unshifted plus [-offset]; case 2
    takes red from [+offset], green and blue unshifted, alpha [+offset] plus
    unshifted. *)
Theorem shader_recombination (tDiffuse : sampler2D) (gi : R) (uv : vec2) :
  0 < gi ->
  let k := Int_part (y uv * 8) in
  let off := Shader.offset uv gi in
  let plus := texture2D tDiffuse (vadd uv off) in
  let minus := texture2D tDiffuse (vsub uv off) in
  let plain := texture2D tDiffuse uv in
  Shader.segment uv = IZR k /\
  Shader.main tDiffuse gi uv =
    match (k mod 3)%Z with
    | 0%Z => mkVec4 (r plus) (g minus) (b plain) (a plus + a minus)
    | 1%Z => mkVec4 (r plain) (g minus) (b plain) (a plain + a minus)
    | _ => mkVec4 (r plus) (g plain) (b plain) (a plus + a plain)
    end.
Proof.
  intros Hgi k off plus minus plain. split; [reflexivity|].
  unfold Shader.main.
  destruct (Rle_dec gi 0) as [Hle | _]; [lra|].
  rewrite segment_whole, mod_3_IZR. fold k off plus minus plain.
  pose proof (Z.mod_pos_bound k 3 ltac:(lia)) as Hb.
  assert (Hcase : (k mod 3 = 0 \/ k mod 3 = 1 \/ k mod 3 = 2)%Z) by lia.
  destruct Hcase as [E | [E | E]]; rewrite E.
  - destruct (Req_dec_T 0 0) as [_ | N]; [reflexivity | lra].
  - destruct (Req_dec_T 1 0) as [A | _]; [lra|].
    destruct (Req_dec_T 1 1) as [_ | N]; [reflexivity | lra].
  - destruct (Req_dec_T 2 0) as [A | _]; [lra|].
    destruct (Req_dec_T 2 1) as [A | _]; [lra | reflexivity].
Qed.

Lemma shader_recombination_witness :
  0 < 1 /\
  Shader.segment (mkVec2 0 (1 / 2)) = IZR (Int_part (1 / 2 * 8)) /\
  Shader.main (fun uv => mkVec4 (x uv) (y uv) 1 1) 1 (mkVec2 0 (1 / 2)) =
    match (Int_part (1 / 2 * 8) mod 3)%Z with
    | 0%Z => mkVec4 (0 + x (Shader.offset (mkVec2 0 (1 / 2)) 1))
                    (1 / 2 - y (Shader.offset (mkVec2 0 (1 / 2)) 1)) 1 (1 + 1)
    | 1%Z => mkVec4 0 (1 / 2 - y (Shader.offset (mkVec2 0 (1 / 2)) 1)) 1 (1 + 1)
    | _ => mkVec4 (0 + x (Shader.offset (mkVec2 0 (1 / 2)) 1)) (1 / 2) 1 (1 + 1)
    end.
Proof.
  split; [lra|].
  apply (shader_recombination (fun uv => mkVec4 (x uv) (y uv) 1 1) 1 (mkVec2 0 (1 / 2))).
  lra.
Defined.

(** C3, as amended. For [glitchIntensity > 0] the displacement has length
    [randomValue * 0.03 * glitchIntensity], where the hash [randomValue]
    lies in [0, 1) and depends on the band and on the intensity; so the
    length is at least 0 and below [0.03 * glitchIntensity]. *)
Theorem offset_bounded (uv : vec2) (gi : R) :
  0 < gi ->
  length (Shader.offset uv gi) = Shader.randomValue uv gi * (3 / 100) * gi /\
  0 <= Shader.randomValue uv gi < 1 /\
  0 <= length (Shader.offset uv gi) < 3 / 100 * gi.
Proof.
  intros Hgi. rewrite offset_length by lra.
  pose proof (fract_range (sin (Shader.segment uv * 1000 + gi) * 1000)) as Hr.
  fold (Shader.randomValue uv gi) in Hr.
  repeat split; try tauto; nra.
Qed.

Lemma offset_bounded_witness :
  0 < 1 /\
  length (Shader.offset (mkVec2 0 0) 1) = Shader.randomValue (mkVec2 0 0) 1 * (3 / 100) * 1 /\
  0 <= Shader.randomValue (mkVec2 0 0) 1 < 1 /\
  0 <= length (Shader.offset (mkVec2 0 0) 1) < 3 / 100 * 1.
Proof.
  split; [lra | apply (offset_bounded (mkVec2 0 0) 1); lra].
Defined.

Lemma segment_origin : Shader.segment (mkVec2 0 0) = 0.
Proof.
  unfold Shader.segment. simpl. replace (0 * 8) with (IZR 0) by lra.
  apply floor_IZR.
Qed.

Lemma randomValue_PI6 : Shader.randomValue (mkVec2 0 0) (PI / 6) = 0.
Proof.
  unfold Shader.randomValue. rewrite segment_origin.
  replace (0 * 1000 + PI / 6) with (PI / 6) by lra.
  rewrite sin_PI6. replace (1 / 2 * 1000) with (IZR 500) by lra.
  apply fract_IZR.
Qed.

Lemma randomValue_asin :
  Shader.randomValue (mkVec2 0 0) (asin (4995 / 10000)) = 1 / 2.
Proof.
  unfold Shader.randomValue. rewrite segment_origin.
  replace (0 * 1000 + asin (4995 / 10000)) with (asin (4995 / 10000)) by lra.
  rewrite sin_asin by lra.
  replace (4995 / 10000 * 1000) with (IZR 499 + 1 / 2) by lra.
  apply fract_half.
Qed.

Lemma asin_4995_range : 0 < asin (4995 / 10000) < PI / 6.
Proof.
  pose proof (asin_bound (4995 / 10000)) as [Hlo Hhi].
  pose proof PI_RGT_0 as Hpi.
  split.
  - apply sin_increasing_0; try lra.
    rewrite sin_0, sin_asin by lra. lra.
  - apply sin_increasing_0; try lra.
    rewrite sin_PI6, sin_asin by lra. lra.
Qed.

(** C3, the claim as stated fails: in band 0 the displacement at intensity
    [asin 0.4995] (about 0.523) is longer than at the larger intensity
    [PI / 6] (about 0.5236), where the hash is 0. *)
Lemma offset_not_monotone :
  let uv := mkVec2 0 0 in
  let i1 := asin (4995 / 10000) in
  let i2 := PI / 6 in
  0 < i1 /\ i1 <= i2 /\
  length (Shader.offset uv i2) < length (Shader.offset uv i1) /\
  ~ Shader.offset_monotone_at uv.
Proof.
  intros uv i1 i2. subst uv i1 i2.
  pose proof asin_4995_range as [Hpos Hlt]. pose proof PI_RGT_0 as Hpi.
  assert (Hdrop : length (Shader.offset (mkVec2 0 0) (PI / 6)) <
                  length (Shader.offset (mkVec2 0 0) (asin (4995 / 10000)))).
  { rewrite !offset_length by lra.
    rewrite randomValue_PI6, randomValue_asin. lra. }
  repeat split; try lra.
  intros Hmono.
  specialize (Hmono (asin (4995 / 10000)) (PI / 6) Hpos ltac:(lra)). lra.
Qed.

End ShaderFacts.

(** ** Scene assembly: the quad fills the view *)

Section SceneFacts.
Import Scene.
Local Open Scope R_scope.

Lemma Q2R_inject_Z (k : Z) : Q2R (inject_Z k) = IZR k.
Proof. unfold Q2R, inject_Z. simpl. lra. Qed.

Lemma aspect_real (w h : Z) :
  (0 < h)%Z -> Q2R (inject_Z w / inject_Z h) = IZR w / IZR h.
Proof.
  intros Hh. unfold Qdiv. rewrite Q2R_mult, Q2R_inv, !Q2R_inject_Z.
  - reflexivity.
  - unfold Qeq, inject_Z. simpl. lia.
Qed.

Lemma frustumHeight_90 (c : PerspectiveCamera) (d : R) :
  fov c = 90%Q -> frustumHeight c d = 2 * d.
Proof.
  intros Hf. unfold frustumHeight. rewrite Hf.
  replace (Q2R 90 / 2 * (PI / 180)) with (PI / 4) by (unfold Q2R; cbn [Qnum Qden]; lra).
  rewrite tan_PI4. lra.
Qed.

(** C8. For a host box of width [w] and height [h], [makeScene] builds a
    camera with field of view 90 degrees, near plane 0.01, far plane 10, at
    distance 1 on the view axis, and a quad of size [2 * (w / h)] by 2 at
    the origin; the quad has exactly the width and height of what the camera
    sees at that distance, for every aspect ratio. *)
Theorem makeScene_quad_fills_view (w h : Z) :
  (0 <= w)%Z -> (0 < h)%Z ->
  let s := makeScene w h in
  let d := Q2R (viewDistance s) in
  fov (camera s) = 90%Q /\ near (camera s) = (1 # 100)%Q /\
  far (camera s) = 10%Q /\ position_z (camera s) = 1%Q /\ mesh_z s = 0%Q /\
  Q2R (aspect (camera s)) = IZR w / IZR h /\
  Q2R (width (geometry s)) = 2 * (IZR w / IZR h) /\
  Q2R (height (geometry s)) = 2 /\
  d = 1 /\ Q2R (near (camera s)) < d < Q2R (far (camera s)) /\
  Q2R (height (geometry s)) = frustumHeight (camera s) d /\
  Q2R (width (geometry s)) = frustumWidth (camera s) d.
Proof.
  intros Hw Hh s d.
  assert (Hd : d = 1) by (unfold d, s, viewDistance, Q2R; simpl; lra).
  assert (Ha : Q2R (aspect (camera s)) = IZR w / IZR h) by (apply aspect_real; exact Hh).
  assert (Hwd : Q2R (width (geometry s)) = 2 * (IZR w / IZR h)).
  { unfold s. simpl. rewrite Q2R_mult, aspect_real by exact Hh.
    unfold Q2R. simpl. lra. }
  assert (Hht : Q2R (height (geometry s)) = 2) by (unfold s, Q2R; simpl; lra).
  repeat split; try reflexivity; try assumption.
  - rewrite Hd. unfold s, Q2R. simpl. lra.
  - rewrite Hd. unfold s, Q2R. simpl. lra.
  - rewrite Hht, frustumHeight_90 by reflexivity. lra.
  - unfold frustumWidth. rewrite Hwd, Ha, frustumHeight_90, Hd by reflexivity. lra.
Qed.

Lemma makeScene_quad_fills_view_witness :
  (0 <= 300)%Z /\ (0 < 150)%Z /\
  Q2R (width (geometry (makeScene 300 150))) =
  frustumWidth (camera (makeScene 300 150)) (Q2R (viewDistance (makeScene 300 150))).
Proof.
  split; [lia | split; [lia|]].
  apply (makeScene_quad_fills_view 300 150); lia.
Defined.

End SceneFacts.

(** ** The text rasterizer: what a redraw does to a pixel *)

Section CanvasFacts.
Import Canvas.
Local Open Scope Q_scope.

Lemma pixel_eq_refl (p : Pixel) : pixel_eq p p.
Proof. unfold pixel_eq. repeat split; reflexivity. Qed.

(** A pixel [writeText] paints with alpha 0 keeps what it held. *)
Lemma sourceOver_clear (c : Color) (cov : Q) (dst : Pixel) :
  ca c * cov == 0 -> pixel_eq (sourceOver (paint c cov) dst) dst.
Proof.
  intros H. unfold pixel_eq, sourceOver, paint. simpl.
  repeat split; rewrite H; ring.
Qed.

(** A pixel painted with alpha 1 ends up the same whatever it held. *)
Lemma sourceOver_opaque (c : Color) (cov : Q) (dst : Pixel) :
  ca c * cov == 1 -> pixel_eq (sourceOver (paint c cov) dst) (paint c cov).
Proof.
  intros H. unfold pixel_eq, sourceOver, paint. simpl.
  repeat split; rewrite H; ring.
Qed.

Lemma sourceOver_twice (c : Color) (cov : Q) (dst : Pixel) :
  ca c * cov == 0 \/ ca c * cov == 1 ->
  pixel_eq (sourceOver (paint c cov) (sourceOver (paint c cov) dst))
           (sourceOver (paint c cov) dst).
Proof.
  intros [H | H]; unfold pixel_eq, sourceOver, paint; simpl;
    repeat split; rewrite H; ring.
Qed.

(** C4, as amended. [writeText] does not clear the bitmap: it composites the
    label over what is there. A second call with the same label, canvas and
    style leaves unchanged every pixel the label paints with alpha 0 or 1
    (untouched, or fully covered in an opaque colour), and a pixel painted
    with alpha 0 still shows what the bitmap held before the call. *)
Theorem writeText_redraw_pixel (raster : Rasterizer) (c : HTMLCanvasElement)
    (style : ComputedStyle) (text : string) (px py : Z) :
  sourceAlpha raster c style text px py == 0 \/
  sourceAlpha raster c style text px py == 1 ->
  pixel_eq (bitmap (writeText raster (writeText raster c style text) style text) px py)
           (bitmap (writeText raster c style text) px py) /\
  (sourceAlpha raster c style text px py == 0 ->
   pixel_eq (bitmap (writeText raster c style text) px py) (bitmap c px py)).
Proof.
  unfold sourceAlpha. cbn [paint pa]. intros H.
  unfold writeText, fillText. cbn [bitmap width height fillStyle font textAlign textBaseline].
  destruct (inside (width c) (height c) px py).
  - split.
    + apply sourceOver_twice. exact H.
    + intros H0. apply sourceOver_clear. exact H0.
  - split; intros; apply pixel_eq_refl.
Qed.

Lemma writeText_redraw_pixel_witness :
  (sourceAlpha edgeRaster (blank 2 1) blackText "Hi" 0 0 == 0 \/
   sourceAlpha edgeRaster (blank 2 1) blackText "Hi" 0 0 == 1) /\
  pixel_eq
    (bitmap (writeText edgeRaster (writeText edgeRaster (blank 2 1) blackText "Hi")
               blackText "Hi") 0%Z 0%Z)
    (bitmap (writeText edgeRaster (blank 2 1) blackText "Hi") 0%Z 0%Z).
Proof.
  assert (H : sourceAlpha edgeRaster (blank 2 1) blackText "Hi" 0 0 == 0 \/
              sourceAlpha edgeRaster (blank 2 1) blackText "Hi" 0 0 == 1)
    by (right; vm_compute; reflexivity).
  split; [exact H|].
  exact (proj1 (writeText_redraw_pixel edgeRaster (blank 2 1) blackText "Hi" 0 0 H)).
Defined.

(** C4, the claim as stated fails: on a blank 2x1 canvas, opaque black text
    whose edge covers pixel (1,0) by half leaves alpha 1/2 there after one
    call and 3/4 after two. *)
Lemma writeText_twice_differs :
  let once := writeText edgeRaster (blank 2 1) blackText "Hi" in
  let twice := writeText edgeRaster once blackText "Hi" in
  pa (bitmap once 1%Z 0%Z) == 1 # 2 /\
  pa (bitmap twice 1%Z 0%Z) == 3 # 4 /\
  ~ pixel_eq (bitmap twice 1%Z 0%Z) (bitmap once 1%Z 0%Z).
Proof.
  cbv zeta. split; [vm_compute; reflexivity|].
  split; [vm_compute; reflexivity|].
  intros [_ [_ [_ H]]]. vm_compute in H. discriminate H.
Qed.

End CanvasFacts.

(** ** The hover driver: one frame *)

Section FrameFacts.
Import Driver.
Local Open Scope Q_scope.

Context {Host : Type}.
Variable upd : Q -> Host -> Host.
Variable rend : Host -> Host.

(** A frame that finds the driver hovered, below 7 and with 50ms
    accumulated takes a step. *)
Lemma runFrame_step (i : FrameInput) (s : State Host) :
  pendingFrames s = 1%nat -> isHovered s = true -> (frames s < 7)%Z ->
  50 <= hoverDuration s + (nowAccumulate i - lastFrame s) ->
  runFrame upd rend i s =
  mkState true (frames s + 1) 0 (nowEnd i) 1
    (rend (upd (stepIntensity (frames s + 1) (random i)) (host s))).
Proof.
  destruct s as [h f hd lf p w]. simpl. intros -> -> Hf Hdue.
  unfold runFrame, animateScene. simpl.
  apply Z.ltb_lt in Hf. rewrite Hf. simpl.
  apply Qle_bool_iff in Hdue. rewrite Hdue. reflexivity.
Qed.

(** A frame that finds the driver not hovered, or at 7, only renders. *)
Lemma runFrame_idle (i : FrameInput) (s : State Host) :
  pendingFrames s = 1%nat -> isHovered s = false \/ (7 <= frames s)%Z ->
  runFrame upd rend i s =
  mkState (isHovered s) (frames s) (hoverDuration s) (nowEnd i) 1 (rend (host s)).
Proof.
  destruct s as [h f hd lf p w]. simpl. intros -> Hidle.
  unfold runFrame, animateScene. simpl.
  assert (E : h && (f <? 7)%Z = false).
  { destruct Hidle as [-> | Hf]; [reflexivity|].
    apply Z.ltb_ge in Hf. rewrite Hf. apply andb_false_r. }
  rewrite E. reflexivity.
Qed.

(** Whatever the clock says, a frame either leaves the counter alone and
    only renders, or counts one up from below 7 and writes the intensity of
    that step. *)
Lemma runFrame_cases (i : FrameInput) (s : State Host) :
  pendingFrames s = 1%nat ->
  let s' := runFrame upd rend i s in
  isHovered s' = isHovered s /\ pendingFrames s' = 1%nat /\ lastFrame s' = nowEnd i /\
  ((frames s' = frames s /\ host s' = rend (host s)) \/
   (isHovered s = true /\ (frames s < 7)%Z /\ frames s' = (frames s + 1)%Z /\
    hoverDuration s' = 0 /\
    host s' = rend (upd (stepIntensity (frames s + 1) (random i)) (host s)))).
Proof.
  destruct s as [h f hd lf p w]. simpl. intros ->.
  unfold runFrame, animateScene. simpl.
  destruct h; simpl.
  - destruct (f <? 7)%Z eqn:Hf; simpl.
    + destruct (Qle_bool 50 (hd + (nowAccumulate i - lf))); simpl.
      * repeat split. right. apply Z.ltb_lt in Hf. repeat split; auto.
      * repeat split. left. split; reflexivity.
    + repeat split. left. split; reflexivity.
  - repeat split. left. split; reflexivity.
Qed.

End FrameFacts.

(** ** The hover driver on the widget *)

Section DriverFacts.
Import Driver.
Local Open Scope Q_scope.

Lemma run_cons (e : Event) (es : list Event) (s : State Widget) :
  run (e :: es) s = run es (dispatch e s).
Proof. reflexivity. Qed.

Lemma run_app (es1 es2 : list Event) (s : State Widget) :
  run (es1 ++ es2) s = run es2 (run es1 s).
Proof. unfold run. apply fold_left_app. Qed.

(** C7. A [mouseout], in any state of the driver, clears [isHovered] and
    sets [glitchIntensity] to 0 at once, by the listener itself: the counter,
    the accumulated time and the frame loop are not involved. *)
Theorem mouseout_forces_zero (s : State Widget) :
  let s' := dispatch Mouseout s in
  isHovered s' = false /\
  glitchIntensity (host s') = 0 /\
  intensityWrites (host s') = intensityWrites (host s) ++ [0] /\
  frames s' = frames s /\ hoverDuration s' = hoverDuration s /\
  lastFrame s' = lastFrame s /\ pendingFrames s' = pendingFrames s /\
  renderCount (host s') = renderCount (host s).
Proof. simpl. repeat split. Qed.

(** C2, as amended. A [mouseover] received while [isHovered] is already true
    leaves the frame counter as it is (the reset is guarded by
    [!isHovered]); it starts no frame callback and touches neither the
    driver's other variables nor the intensity. *)
Theorem mouseover_while_hovered (s : State Widget) :
  isHovered s = true ->
  let s' := dispatch Mouseover s in
  frames s' = frames s /\ isHovered s' = true /\
  pendingFrames s' = pendingFrames s /\
  hoverDuration s' = hoverDuration s /\ lastFrame s' = lastFrame s /\
  glitchIntensity (host s') = glitchIntensity (host s) /\
  intensityWrites (host s') = intensityWrites (host s) /\
  renderCount (host s') = renderCount (host s).
Proof.
  intros Hh. simpl. rewrite Hh. simpl. repeat split.
Qed.

Lemma mouseover_while_hovered_witness :
  isHovered midRamp = true /\ frames (dispatch Mouseover midRamp) = frames midRamp.
Proof.
  split; [reflexivity|].
  exact (proj1 (mouseover_while_hovered midRamp eq_refl)).
Defined.

(** C2, the claim as stated fails: three steps into the ramp a second
    [mouseover] leaves the counter at 3. *)
Lemma mouseover_while_hovered_keeps_count :
  isHovered midRamp = true /\ frames midRamp = 3%Z /\
  frames (dispatch Mouseover midRamp) = 3%Z /\
  frames (dispatch Mouseover midRamp) <> 0%Z.
Proof.
  repeat split; try reflexivity. vm_compute. discriminate.
Qed.

(** *** The counter stays within 0..7 *)

Lemma counterInv_initial (t0 t1 : Q) : counterInv (initial t0 t1).
Proof. unfold counterInv. simpl. split; [lia | reflexivity]. Qed.

Lemma counterInv_dispatch (e : Event) (s : State Widget) :
  counterInv s -> counterInv (dispatch e s).
Proof.
  intros [Hf Hp]. destruct e as [ | | | i]; unfold counterInv.
  - simpl. destruct (isHovered s); simpl; split; auto; lia.
  - simpl. split; auto.
  - simpl. split; auto.
  - pose proof (runFrame_cases updateIntensity render i s Hp) as (_ & Hp' & _ & Hc).
    cbv zeta in Hp', Hc. simpl. split; [|exact Hp'].
    destruct Hc as [[E _] | (_ & Hlt & E & _)]; rewrite E; lia.
Qed.

Lemma counterInv_run (es : list Event) (s : State Widget) :
  counterInv s -> counterInv (run es s).
Proof.
  revert s. induction es as [| e es IH]; intros s Hs; [exact Hs|].
  rewrite run_cons. apply IH, counterInv_dispatch, Hs.
Qed.

(** C10. In every state the widget reaches, [frames] lies in 0..7 (and one
    frame callback is waiting). At 7 a frame writes no intensity and leaves
    the counter at 7, while it still renders; [mouseout] and [mouseleave]
    leave the counter alone; only a [mouseover] that arrives with
    [isHovered] false puts it back to 0. *)
Theorem frames_at_most_7 (t0 t1 : Q) (es : list Event) :
  let s := run es (initial t0 t1) in
  (0 <= frames s <= 7)%Z /\ pendingFrames s = 1%nat /\
  (forall i : FrameInput,
     frames s = 7%Z ->
     let s' := dispatch (AnimationFrame i) s in
     frames s' = 7%Z /\ isHovered s' = isHovered s /\
     glitchIntensity (host s') = glitchIntensity (host s) /\
     intensityWrites (host s') = intensityWrites (host s) /\
     renderCount (host s') = S (renderCount (host s))) /\
  frames (dispatch Mouseover s) = (if isHovered s then frames s else 0%Z) /\
  frames (dispatch Mouseout s) = frames s /\
  frames (dispatch Mouseleave s) = frames s.
Proof.
  intros s.
  destruct (counterInv_run es (initial t0 t1) (counterInv_initial t0 t1)) as [Hf Hp].
  fold s in Hf, Hp.
  split; [exact Hf|]. split; [exact Hp|]. split.
  - intros i H7. simpl.
    rewrite (runFrame_idle updateIntensity render i s Hp) by (right; lia).
    simpl. repeat split. exact H7.
  - simpl. destruct (isHovered s); repeat split.
Qed.

End DriverFacts.

(** ** The hover driver: intensity range and the hover cycle *)

Section IntensityFacts.
Import Driver.
Local Open Scope Q_scope.

Lemma pulse_range (i : FrameInput) : validRandom i -> 1 # 2 <= pulse i <= 1.
Proof.
  unfold validRandom, pulse, glitchIntensityMod. intros [H0 H1]. split; lra.
Qed.

Lemma stepIntensity_ok (f : Z) (rnd : Q) :
  0 <= rnd < 1 -> intensityOk (stepIntensity f rnd).
Proof.
  intros [H0 H1]. unfold stepIntensity, intensityOk, glitchIntensityMod.
  destruct (f <? 5)%Z; [right; split; lra | left; reflexivity].
Qed.

Lemma widgetOk_update (v : Q) (w : Widget) :
  intensityOk v -> widgetOk w -> widgetOk (updateIntensity v w).
Proof.
  intros Hv [_ Hw]. split; simpl; [exact Hv|].
  apply Forall_app. split; [exact Hw | constructor; [exact Hv | constructor]].
Qed.

Lemma widgetOk_dispatch (e : Event) (s : State Widget) :
  validEvent e -> pendingFrames s = 1%nat ->
  widgetOk (host s) -> widgetOk (host (dispatch e s)).
Proof.
  intros He Hp Hw. destruct e as [ | | | i]; simpl.
  - exact Hw.
  - apply widgetOk_update; [left; reflexivity | exact Hw].
  - exact Hw.
  - pose proof (runFrame_cases updateIntensity render i s Hp) as (_ & _ & _ & Hc).
    cbv zeta in Hc.
    destruct Hc as [[_ E] | (_ & _ & _ & _ & E)]; rewrite E.
    + exact Hw.
    + apply (widgetOk_update _ _ (stepIntensity_ok _ _ He) Hw).
Qed.

Lemma widgetOk_run (es : list Event) (s : State Widget) :
  Forall validEvent es -> counterInv s ->
  widgetOk (host s) -> widgetOk (host (run es s)).
Proof.
  revert s. induction es as [| e es IH]; intros s Hes Hs Hw; [exact Hw|].
  inversion Hes as [| ? ? He Hrest]; subst.
  rewrite run_cons. apply IH; [exact Hrest | apply counterInv_dispatch, Hs |].
  apply widgetOk_dispatch; [exact He | apply Hs | exact Hw].
Qed.

Lemma intensityOk_unit (v : Q) : intensityOk v -> 0 <= v <= 1.
Proof.
  intros [-> | [H0 H1]]; split; lra.
Qed.

(** C9, as amended. The [glitchIntensity] uniform always lies in [0, 1]: it
    starts at 0 and every write is either 0 or [(Math.random() + 1) * 0.5],
    which lies in [0.5, 1] as [Math.random()] lies in [0, 1); it is never
    negative and stays away from 2. (In exact arithmetic the upper end is not
    reached; in doubles it is, when [Math.random() + 1] rounds up to 2.) *)
Theorem intensity_within_unit (t0 t1 : Q) (es : list Event) :
  Forall validEvent es ->
  let w := host (run es (initial t0 t1)) in
  0 <= glitchIntensity w <= 1 /\
  (glitchIntensity w = 0 \/ 1 # 2 <= glitchIntensity w <= 1) /\
  Forall (fun v => v = 0 \/ 1 # 2 <= v <= 1) (intensityWrites w).
Proof.
  intros Hes w.
  assert (Hw : widgetOk w).
  { apply widgetOk_run; [exact Hes | apply counterInv_initial |].
    split; simpl; [left; reflexivity | constructor]. }
  destruct Hw as [Hg Hl]. split; [apply intensityOk_unit, Hg|].
  split; [exact Hg | exact Hl].
Qed.

Lemma intensity_within_unit_witness :
  Forall validEvent [Mouseover; AnimationFrame (mkFrame 100 100 (3 # 4))] /\
  0 <= glitchIntensity
         (host (run [Mouseover; AnimationFrame (mkFrame 100 100 (3 # 4))] (initial 0 0))) <= 1.
Proof.
  assert (H : Forall validEvent [Mouseover; AnimationFrame (mkFrame 100 100 (3 # 4))]).
  { repeat constructor; simpl; unfold Qle, Qlt; simpl; lia. }
  split; [exact H|].
  exact (proj1 (intensity_within_unit 0 0 _ H)).
Defined.

End IntensityFacts.

(** ** The hover cycle *)

Section HoverCycle.
Import Driver.
Local Open Scope Q_scope.

Lemma last_cons_default (v d : Q) (l : list Q) : last (v :: l) d = last l v.
Proof.
  revert v d. induction l as [| a l IH]; intros v d; [reflexivity|].
  change (last (v :: a :: l) d) with (last (a :: l) d).
  rewrite (IH a d). symmetry. apply IH.
Qed.

Lemma Forall_prefix {A : Type} (P : A -> Prop) (n : nat) (l : list A) :
  Forall P l -> Forall P (firstn n l).
Proof.
  intros H. rewrite <- (firstn_skipn n l) in H.
  apply Forall_app in H. exact (proj1 H).
Qed.

Lemma last_app_repeat (l : list Q) (v d : Q) (k : nat) :
  (1 <= k)%nat -> last (l ++ repeat v k) d = v.
Proof.
  intros Hk. destruct k as [| k]; [lia|].
  simpl repeat. rewrite repeat_cons, app_assoc. apply last_last.
Qed.

Lemma expectedWrites_done (f : Z) (fs : list FrameInput) :
  (7 <= f)%Z -> expectedWrites f fs = [].
Proof.
  intros Hf. destruct fs as [| i rest]; [reflexivity|]. simpl.
  apply Z.ltb_ge in Hf. rewrite Hf. reflexivity.
Qed.

(** Frames that each come 50ms after the one before all step, up to 7. *)
Lemma run_due_frames (fs : list FrameInput) :
  forall s : State Widget,
  isHovered s = true -> pendingFrames s = 1%nat -> (0 <= frames s <= 7)%Z ->
  0 <= hoverDuration s -> spaced (lastFrame s) fs ->
  let s' := run (map AnimationFrame fs) s in
  isHovered s' = true /\ pendingFrames s' = 1%nat /\
  frames s' = Z.min 7 (frames s + Z.of_nat (List.length fs)) /\
  intensityWrites (host s') = intensityWrites (host s) ++ expectedWrites (frames s) fs /\
  glitchIntensity (host s') = last (expectedWrites (frames s) fs) (glitchIntensity (host s)).
Proof.
  induction fs as [| i rest IH]; intros s Hh Hp Hf Hd Hsp.
  - simpl. repeat split; auto; [lia | now rewrite app_nil_r].
  - destruct Hsp as [Hdue Hrest]. cbv zeta.
    change (map AnimationFrame (i :: rest)) with (AnimationFrame i :: map AnimationFrame rest).
    rewrite run_cons. cbn [dispatch].
    destruct (Z_lt_le_dec (frames s) 7) as [Hlt | Hge].
    + rewrite (runFrame_step updateIntensity render i s Hp Hh Hlt) by lra.
      set (s1 := mkState true (frames s + 1) 0 (nowEnd i) 1 _).
      destruct (IH s1) as (H1 & H2 & H3 & H4 & H5);
        try reflexivity; try (simpl; lia); try (simpl; lra); try exact Hrest.
      cbn [expectedWrites]. apply Z.ltb_lt in Hlt. rewrite Hlt.
      split; [exact H1|]. split; [exact H2|]. split.
      * rewrite H3. simpl frames. cbn [List.length]. lia.
      * split.
        -- rewrite H4. simpl. now rewrite <- app_assoc.
        -- rewrite H5. simpl host. simpl glitchIntensity. simpl frames.
           symmetry. apply last_cons_default.
    + rewrite (runFrame_idle updateIntensity render i s Hp) by (right; exact Hge).
      set (s1 := mkState (isHovered s) (frames s) (hoverDuration s) (nowEnd i) 1 _).
      destruct (IH s1) as (H1 & H2 & H3 & H4 & H5);
        try reflexivity; try (simpl; lia); try assumption.
      rewrite (expectedWrites_done (frames s) (i :: rest)) by exact Hge.
      simpl frames in H3, H4, H5.
      rewrite (expectedWrites_done (frames s) rest) in H4, H5 by exact Hge.
      split; [exact H1|]. split; [exact H2|]. split.
      * rewrite H3. cbn [List.length]. lia.
      * split; [exact H4 | exact H5].
Qed.

(** From 0, five or more due frames write four pulses and then zeros. *)
Lemma expectedWrites_ramp (fs : list FrameInput) :
  (5 <= List.length fs)%nat ->
  expectedWrites 0 fs =
  map pulse (firstn 4 fs) ++ repeat 0 (Nat.min (List.length fs) 7 - 4).
Proof.
  intros Hn.
  destruct fs as [| i1 [| i2 [| i3 [| i4 [| i5 [| i6 [| i7 rest]]]]]]];
    simpl in Hn; try lia; try reflexivity.
  destruct rest; reflexivity.
Qed.

(** Once the intensity is 0 and the driver is not hovered or has its counter
    at 5 or more, nothing but a [mouseover] can change the intensity: frames
    step to 6 and 7 writing 0 or only render, [mouseout] writes 0,
    [mouseleave] only swaps the texture. *)
Lemma settled_until_mouseover (more : list Event) :
  forall s : State Widget,
  pendingFrames s = 1%nat -> isHovered s = false \/ (5 <= frames s)%Z ->
  glitchIntensity (host s) = 0 ->
  Forall (fun e => e <> Mouseover) more ->
  glitchIntensity (host (run more s)) = 0.
Proof.
  induction more as [| e rest IH]; intros s Hp Hq Hg Hmore; [exact Hg|].
  inversion Hmore as [| ? ? He Hrest]; subst.
  rewrite run_cons. destruct e as [ | | | i].
  - congruence.
  - apply IH; [exact Hp | left; reflexivity | reflexivity | exact Hrest].
  - apply IH; [exact Hp | exact Hq | exact Hg | exact Hrest].
  - cbn [dispatch].
    pose proof (runFrame_cases updateIntensity render i s Hp) as (Hh & Hp' & _ & Hc).
    cbv zeta in Hh, Hp', Hc. apply IH; [exact Hp' | | | exact Hrest].
    + rewrite Hh.
      destruct Hc as [[E _] | (_ & _ & E & _)]; rewrite E;
        destruct Hq as [Hq | Hq]; [left | right | left | right]; auto; lia.
    + destruct Hc as [[_ E] | (Hhov & _ & _ & _ & E)]; rewrite E; simpl; [exact Hg|].
      destruct Hq as [Hq | Hq]; [congruence|].
      unfold stepIntensity.
      assert (Hn : (frames s + 1 <? 5)%Z = false) by (apply Z.ltb_ge; lia).
      rewrite Hn. reflexivity.
Qed.

Lemma nonzero_pulse (i : FrameInput) : validRandom i -> nonzero (pulse i) = true.
Proof.
  intros Hv. pose proof (pulse_range i Hv) as [Hlo _].
  unfold nonzero. destruct (Qeq_bool (pulse i) 0) eqn:E; [|reflexivity].
  apply Qeq_bool_iff in E. lra.
Qed.

Lemma filter_nonzero_pulses (fs : list FrameInput) :
  Forall validRandom fs -> filter nonzero (map pulse fs) = map pulse fs.
Proof.
  induction 1 as [| i rest Hi _ IH]; [reflexivity|].
  simpl. rewrite (nonzero_pulse i Hi), IH. reflexivity.
Qed.

Lemma filter_nonzero_zeros (k : nat) : filter nonzero (repeat 0 k) = [].
Proof. induction k as [| k IH]; [reflexivity | exact IH]. Qed.

(** C1, as amended. From an idle state, a [mouseover] followed by five or
    more frames, each at least 50ms after the one before, writes exactly
    four nonzero intensities, each in [0.5, 1.0], and then 0 (once for each
    further frame up to the seventh); the intensity is then 0 and does not
    change until the next [mouseover], whatever frames, [mouseout] and
    [mouseleave] events come. *)
Theorem hover_cycle (s0 : State Widget) (fs : list FrameInput) :
  isHovered s0 = false -> pendingFrames s0 = 1%nat -> 0 <= hoverDuration s0 ->
  (5 <= List.length fs)%nat -> spaced (lastFrame s0) fs -> Forall validRandom fs ->
  let s := run (Mouseover :: map AnimationFrame fs) s0 in
  let ws := map pulse (firstn 4 fs) ++ repeat 0 (Nat.min (List.length fs) 7 - 4) in
  intensityWrites (host s) = intensityWrites (host s0) ++ ws /\
  List.length (firstn 4 fs) = 4%nat /\
  Forall (fun v => 1 # 2 <= v <= 1) (map pulse (firstn 4 fs)) /\
  List.length (filter nonzero ws) = 4%nat /\
  (1 <= Nat.min (List.length fs) 7 - 4)%nat /\
  glitchIntensity (host s) = 0 /\
  forall more : list Event,
    Forall (fun e => e <> Mouseover) more ->
    glitchIntensity (host (run more s)) = 0.
Proof.
  intros Hh Hp Hd Hn Hsp Hv s ws.
  assert (Hk : (1 <= Nat.min (List.length fs) 7 - 4)%nat) by lia.
  assert (H4 : List.length (firstn 4 fs) = 4%nat) by (rewrite length_firstn; lia).
  assert (Hv4 : Forall validRandom (firstn 4 fs)) by (apply Forall_prefix, Hv).
  set (s1 := dispatch Mouseover s0).
  assert (Es : s = run (map AnimationFrame fs) s1) by reflexivity.
  destruct (run_due_frames fs s1) as (R1 & R2 & R3 & R4 & R5).
  { reflexivity. }
  { exact Hp. }
  { unfold s1. simpl. rewrite Hh. simpl. lia. }
  { exact Hd. }
  { exact Hsp. }
  rewrite <- Es in R1, R2, R3, R4, R5.
  assert (F0 : frames s1 = 0%Z) by (unfold s1; simpl; rewrite Hh; reflexivity).
  rewrite F0 in R3, R4, R5.
  rewrite (expectedWrites_ramp fs Hn) in R4, R5. fold ws in R4, R5.
  assert (Hzero : glitchIntensity (host s) = 0).
  { rewrite R5. unfold ws. apply last_app_repeat, Hk. }
  split; [exact R4|]. split; [exact H4|]. split.
  { apply Forall_map. eapply Forall_impl; [|exact Hv4].
    intros i Hi. apply pulse_range, Hi. }
  split.
  { unfold ws. rewrite filter_app, filter_nonzero_zeros, app_nil_r.
    rewrite (filter_nonzero_pulses _ Hv4), length_map. exact H4. }
  split; [exact Hk|]. split; [exact Hzero|].
  intros more Hmore.
  apply settled_until_mouseover; [exact R2 | right; lia | exact Hzero | exact Hmore].
Qed.

Lemma hover_cycle_witness :
  isHovered (initial 0 0) = false /\
  (5 <= List.length hoverFrames)%nat /\
  List.length
    (filter nonzero
       (map pulse (firstn 4 hoverFrames) ++
        repeat 0 (Nat.min (List.length hoverFrames) 7 - 4))) = 4%nat.
Proof.
  split; [reflexivity|]. split; [simpl; lia|].
  refine (proj1 (proj2 (proj2 (proj2
    (hover_cycle (initial 0 0) hoverFrames eq_refl eq_refl _ _ _ _))))).
  - simpl. lra.
  - simpl. lia.
  - simpl. repeat split; lra.
  - unfold hoverFrames, validRandom. repeat constructor; simpl; lra.
Defined.

(** C1, the claim as stated fails: a hover of eight frames 100ms apart
    writes four nonzero intensities, not five, and then three zeros. *)
Lemma hover_cycle_four_pulses :
  let s := run (Mouseover :: map AnimationFrame hoverFrames) (initial 0 0) in
  intensityWrites (host s) = [1 # 2; 3 # 4; 5 # 8; 7 # 8; 0; 0; 0] /\
  List.length (filter nonzero (intensityWrites (host s))) = 4%nat /\
  List.length (filter nonzero (intensityWrites (host s))) <> 5%nat.
Proof.
  cbv zeta. split; [vm_compute; reflexivity|].
  split; [vm_compute; reflexivity | vm_compute; discriminate].
Qed.

End HoverCycle.

(** ** The fragment shader: bands, samples and channels *)

Section ShaderBands.
Import GLSL.
Local Open Scope R_scope.

Lemma segment_in_band (uv : vec2) (k : Z) :
  IZR k / 8 <= y uv < (IZR k + 1) / 8 -> Int_part (y uv * 8) = k.
Proof.
  intros [Hlo Hhi]. symmetry. apply Int_part_spec. lra.
Qed.

(** Band [k] is the strip [k/8 <= uv.y < (k+1)/8]: there [segment] is [k]
    and the recombination rule is the one of [k mod 3]. This covers the rows
    outside the unit square too ([uv.y = 1] lies in band 8). *)
Theorem segment_of_band (uv : vec2) (k : Z) :
  IZR k / 8 <= y uv < (IZR k + 1) / 8 ->
  Shader.segment uv = IZR k /\ mod_ (Shader.segment uv) 3 = IZR (k mod 3).
Proof.
  intros Hb. rewrite segment_whole, (segment_in_band uv k Hb).
  split; [reflexivity | apply mod_3_IZR].
Qed.

Lemma segment_of_band_witness :
  IZR 8 / 8 <= y (mkVec2 0 1) < (IZR 8 + 1) / 8 /\
  Shader.segment (mkVec2 0 1) = IZR 8.
Proof.
  assert (H : IZR 8 / 8 <= y (mkVec2 0 1) < (IZR 8 + 1) / 8) by (simpl; lra).
  split; [exact H | exact (proj1 (segment_of_band (mkVec2 0 1) 8 H))].
Defined.

(** Inside the texture, [0 <= uv.y < 1], there are exactly the eight bands
    0..7, each one eighth high. *)
Theorem eight_bands (uv : vec2) :
  0 <= y uv < 1 ->
  exists k : Z,
    (0 <= k <= 7)%Z /\ Shader.segment uv = IZR k /\
    IZR k / 8 <= y uv < (IZR k + 1) / 8.
Proof.
  intros [Hlo Hhi]. exists (Int_part (y uv * 8)).
  destruct (base_Int_part (y uv * 8)) as [Hle Hgt].
  assert (Hk0 : (-1 < Int_part (y uv * 8))%Z) by (apply lt_IZR; lra).
  assert (Hk8 : (Int_part (y uv * 8) < 8)%Z) by (apply lt_IZR; lra).
  split; [lia|]. split; [apply segment_whole|]. lra.
Qed.

Lemma eight_bands_witness :
  0 <= y (mkVec2 0 (1 / 2)) < 1 /\
  exists k : Z,
    (0 <= k <= 7)%Z /\ Shader.segment (mkVec2 0 (1 / 2)) = IZR k /\
    IZR k / 8 <= y (mkVec2 0 (1 / 2)) < (IZR k + 1) / 8.
Proof.
  assert (H : 0 <= y (mkVec2 0 (1 / 2)) < 1) by (simpl; lra).
  split; [exact H | exact (eight_bands (mkVec2 0 (1 / 2)) H)].
Defined.

(** The blue channel is never displaced: for every intensity, coordinate
    and texture it is the blue of the sample at [uv]. *)
Theorem blue_never_displaced (tDiffuse : sampler2D) (gi : R) (uv : vec2) :
  b (Shader.main tDiffuse gi uv) = b (texture2D tDiffuse uv).
Proof.
  unfold Shader.main.
  destruct (Rle_dec gi 0); [reflexivity|].
  destruct (Req_dec_T (mod_ (Shader.segment uv) 3) 0); [reflexivity|].
  destruct (Req_dec_T (mod_ (Shader.segment uv) 3) 1); reflexivity.
Qed.

(** The two shifted samples are taken on the row of [uv], mirrored about it:
    one a distance [length offset] to the right, the other the same distance
    to the left, and that distance is below [0.03 * glitchIntensity]. *)
Theorem samples_mirrored_on_row (uv : vec2) (gi : R) :
  0 < gi ->
  let off := Shader.offset uv gi in
  y (vadd uv off) = y uv /\ y (vsub uv off) = y uv /\
  x (vadd uv off) - x uv = length off /\
  x uv - x (vsub uv off) = length off /\
  0 <= length off < 3 / 100 * gi.
Proof.
  intros Hgi off. unfold off.
  rewrite offset_length by lra. rewrite offset_components. simpl.
  pose proof (fract_range (sin (Shader.segment uv * 1000 + gi) * 1000)) as Hr.
  fold (Shader.randomValue uv gi) in Hr.
  repeat split; try lra; nra.
Qed.

Lemma samples_mirrored_on_row_witness :
  0 < 1 /\
  y (vadd (mkVec2 0 0) (Shader.offset (mkVec2 0 0) 1)) = y (mkVec2 0 0).
Proof.
  split; [lra|].
  exact (proj1 (samples_mirrored_on_row (mkVec2 0 0) 1 ltac:(lra))).
Defined.

(** With the glitch on, a fragment whose three samples agree keeps its
    colour but gets twice the alpha: the active shader is no identity pass
    even where there is nothing to displace. *)
Theorem uniform_samples_double_alpha (tDiffuse : sampler2D) (gi : R) (uv : vec2) :
  0 < gi ->
  texture2D tDiffuse (vadd uv (Shader.offset uv gi)) = texture2D tDiffuse uv ->
  texture2D tDiffuse (vsub uv (Shader.offset uv gi)) = texture2D tDiffuse uv ->
  Shader.main tDiffuse gi uv =
  mkVec4 (r (texture2D tDiffuse uv)) (g (texture2D tDiffuse uv))
         (b (texture2D tDiffuse uv)) (2 * a (texture2D tDiffuse uv)).
Proof.
  intros Hgi Hp Hm. unfold Shader.main.
  destruct (Rle_dec gi 0) as [Hle | _]; [lra|].
  rewrite Hp, Hm.
  destruct (Req_dec_T (mod_ (Shader.segment uv) 3) 0);
    [|destruct (Req_dec_T (mod_ (Shader.segment uv) 3) 1)];
    f_equal; lra.
Qed.

Lemma uniform_samples_double_alpha_witness :
  0 < 1 /\
  Shader.main (fun _ => mkVec4 1 1 1 1) 1 (mkVec2 0 0) = mkVec4 1 1 1 (2 * 1).
Proof.
  split; [lra|].
  exact (uniform_samples_double_alpha (fun _ => mkVec4 1 1 1 1) 1 (mkVec2 0 0)
           ltac:(lra) eq_refl eq_refl).
Defined.

End ShaderBands.

(** ** Canvas and scene: sizes and the first draw *)

Section CanvasMore.
Import Canvas.
Local Open Scope Q_scope.

(** On a pixel of the canvas one call adds the painted alpha to what the
    pixel keeps of its own. *)
Lemma writeText_alpha (raster : Rasterizer) (c : HTMLCanvasElement)
    (style : ComputedStyle) (text : string) (px py : Z) :
  inside (width c) (height c) px py = true ->
  pa (bitmap (writeText raster c style text) px py) =
  sourceAlpha raster c style text px py +
  pa (bitmap c px py) * (1 - sourceAlpha raster c style text px py).
Proof.
  intros Hin. unfold writeText, fillText, sourceAlpha.
  cbn [bitmap width height fillStyle font textAlign textBaseline].
  rewrite Hin. reflexivity.
Qed.

(** The first draw on a new canvas leaves exactly the painted label: each
    pixel of the canvas holds the fill colour weighted by the glyph coverage
    (premultiplied), and nothing lies outside the canvas. *)
Theorem first_draw_is_paint (raster : Rasterizer) (w h : Z)
    (style : ComputedStyle) (text : string) (px py : Z) :
  pixel_eq
    (bitmap (writeText raster (makeTextCanvas w h) style text) px py)
    (if inside w h px py then
       paint (color style)
         (raster (fontWeight style ++ " " ++ fontSize style ++ " " ++ fontFamily style)%string
            AlignCenter BaseMiddle text (inject_Z w / 2) (inject_Z h / 2) px py)
     else mkPixel 0 0 0 0).
Proof.
  unfold writeText, fillText, makeTextCanvas.
  cbn [bitmap width height fillStyle font textAlign textBaseline].
  destruct (inside w h px py); [|apply pixel_eq_refl].
  unfold pixel_eq, sourceOver, paint. simpl. repeat split; ring.
Qed.

(** A draw never makes a pixel more transparent: with the painted alpha and
    the pixel's alpha both in [0, 1], the new alpha lies between the old one
    and 1. What was drawn before is never erased. *)
Theorem writeText_never_erases (raster : Rasterizer) (c : HTMLCanvasElement)
    (style : ComputedStyle) (text : string) (px py : Z) :
  0 <= sourceAlpha raster c style text px py <= 1 ->
  0 <= pa (bitmap c px py) <= 1 ->
  pa (bitmap c px py) <= pa (bitmap (writeText raster c style text) px py) <= 1.
Proof.
  intros Hs Ha.
  destruct (inside (width c) (height c) px py) eqn:Hin.
  - rewrite (writeText_alpha raster c style text px py Hin).
    set (s := sourceAlpha raster c style text px py) in *.
    set (a0 := pa (bitmap c px py)) in *.
    split; nra.
  - unfold writeText, fillText.
    cbn [bitmap width height fillStyle font textAlign textBaseline].
    rewrite Hin. split; lra.
Qed.

Lemma writeText_never_erases_witness :
  0 <= sourceAlpha edgeRaster (makeTextCanvas 2 1) blackText "Hi" 1 0 <= 1 /\
  0 <= pa (bitmap (makeTextCanvas 2 1) 1%Z 0%Z) <= 1 /\
  pa (bitmap (makeTextCanvas 2 1) 1%Z 0%Z) <=
  pa (bitmap (writeText edgeRaster (makeTextCanvas 2 1) blackText "Hi") 1%Z 0%Z) <= 1.
Proof.
  assert (Hs : 0 <= sourceAlpha edgeRaster (makeTextCanvas 2 1) blackText "Hi" 1 0 <= 1)
    by (vm_compute; split; discriminate).
  assert (Ha : 0 <= pa (bitmap (makeTextCanvas 2 1) 1%Z 0%Z) <= 1)
    by (vm_compute; split; discriminate).
  split; [exact Hs|]. split; [exact Ha|].
  exact (writeText_never_erases edgeRaster (makeTextCanvas 2 1) blackText "Hi" 1 0 Hs Ha).
Defined.

End CanvasMore.

Section SceneMore.
Local Open Scope Q_scope.

(** The scene depends on the shape of the host box only: a box [k] times as
    large gives the same camera aspect and the same quad. *)
Theorem makeScene_scale (k w h : Z) :
  (0 < k)%Z -> (0 < h)%Z ->
  Scene.aspect (Scene.camera (Scene.makeScene (k * w) (k * h))) ==
  Scene.aspect (Scene.camera (Scene.makeScene w h)) /\
  Scene.width (Scene.geometry (Scene.makeScene (k * w) (k * h))) ==
  Scene.width (Scene.geometry (Scene.makeScene w h)) /\
  Scene.height (Scene.geometry (Scene.makeScene (k * w) (k * h))) =
  Scene.height (Scene.geometry (Scene.makeScene w h)).
Proof.
  intros Hk Hh. simpl.
  assert (E : inject_Z (k * w) / inject_Z (k * h) == inject_Z w / inject_Z h).
  { rewrite !inject_Z_mult. field. split.
    - unfold Qeq, inject_Z. simpl. lia.
    - unfold Qeq, inject_Z. simpl. lia. }
  split; [exact E|]. split; [rewrite E; reflexivity | reflexivity].
Qed.

Lemma makeScene_scale_witness :
  (0 < 2)%Z /\ (0 < 150)%Z /\
  Scene.aspect (Scene.camera (Scene.makeScene (2 * 300) (2 * 150))) ==
  Scene.aspect (Scene.camera (Scene.makeScene 300 150)).
Proof.
  split; [lia|]. split; [lia|].
  exact (proj1 (makeScene_scale 2 300 150 eq_refl eq_refl)).
Defined.

(** The quad has the shape of the text canvas it is textured with, and the
    renderer output has the canvas's size: the label is mapped onto the quad
    without stretching. *)
Theorem quad_matches_canvas (w h : Z) :
  (0 < h)%Z ->
  let c := Canvas.makeTextCanvas w h in
  let s := Scene.makeScene w h in
  Scene.width (Scene.geometry s) * inject_Z (Canvas.height c) ==
  Scene.height (Scene.geometry s) * inject_Z (Canvas.width c) /\
  Scene.rendererSize s = (Canvas.width c, Canvas.height c).
Proof.
  intros Hh c s. split; [|reflexivity]. simpl. field.
  unfold Qeq, inject_Z. simpl. lia.
Qed.

Lemma quad_matches_canvas_witness :
  (0 < 150)%Z /\
  Scene.rendererSize (Scene.makeScene 300 150) =
  (Canvas.width (Canvas.makeTextCanvas 300 150),
   Canvas.height (Canvas.makeTextCanvas 300 150)).
Proof.
  split; [lia|].
  exact (proj2 (quad_matches_canvas 300 150 eq_refl)).
Defined.

End SceneMore.

(** ** The hover driver: the accumulated time *)

Section WaitFacts.
Import Driver.
Local Open Scope Q_scope.

Context {Host : Type}.
Variable upd : Q -> Host -> Host.
Variable rend : Host -> Host.

(** The accumulated time stays in [0, 50) over a frame, if the clock has
    not gone backwards since the previous one. *)
Lemma runFrame_hoverDuration (i : FrameInput) (s : State Host) :
  pendingFrames s = 1%nat -> 0 <= hoverDuration s < 50 ->
  lastFrame s <= nowAccumulate i ->
  0 <= hoverDuration (runFrame upd rend i s) < 50.
Proof.
  destruct s as [h f hd lf p w]. simpl. intros -> Hhd Hclk.
  unfold runFrame, animateScene. simpl.
  destruct (h && (f <? 7)%Z); simpl; [|exact Hhd].
  destruct (Qle_bool 50 (hd + (nowAccumulate i - lf))) eqn:E; simpl.
  - split; lra.
  - assert (Hlt : hd + (nowAccumulate i - lf) < 50).
    { apply Qnot_le_lt. intros Hle. apply Qle_bool_iff in Hle. congruence. }
    split; lra.
Qed.

End WaitFacts.

(** ** The hover driver: rendering, quiet states and event order *)

Section DriverMore.
Import Driver.
Local Open Scope Q_scope.

Lemma counts_run (es : list Event) :
  forall s : State Widget,
  counterInv s ->
  renderCount (host (run es s)) =
    (renderCount (host s) + List.length (filter isFrame es))%nat /\
  textureSwaps (host (run es s)) =
    (textureSwaps (host s) + List.length (filter isRefresh es))%nat.
Proof.
  induction es as [| e es IH]; intros s Hs; [simpl; lia|].
  rewrite run_cons.
  destruct (IH (dispatch e s) (counterInv_dispatch e s Hs)) as [IHr IHt].
  rewrite IHr, IHt. destruct Hs as [_ Hp].
  destruct e as [ | | | i]; simpl filter; cbn [List.length]; try (simpl; lia).
  cbn [dispatch].
  pose proof (runFrame_cases updateIntensity render i s Hp) as (_ & _ & _ & Hc).
  cbv zeta in Hc.
  destruct Hc as [[_ E] | (_ & _ & _ & _ & E)]; rewrite E; simpl; lia.
Qed.

(** The scene is rendered once when the widget is built and once on every
    animation frame, whatever the hover state; the texture is swapped once
    per [mouseover] and per [mouseleave]. *)
Theorem render_every_frame (t0 t1 : Q) (es : list Event) :
  let w := host (run es (initial t0 t1)) in
  renderCount w = S (List.length (filter isFrame es)) /\
  textureSwaps w = List.length (filter isRefresh es).
Proof.
  intros w.
  destruct (counts_run es (initial t0 t1) (counterInv_initial t0 t1)) as [Hr Ht].
  fold w in Hr, Ht. rewrite Hr, Ht. simpl. lia.
Qed.

Lemma quietInv_dispatch (e : Event) (s : State Widget) :
  counterInv s -> quietInv s -> quietInv (dispatch e s).
Proof.
  intros [Hf Hp] Hq. unfold quietInv in *. destruct e as [ | | | i].
  - simpl. destruct (isHovered s) eqn:Hh; simpl.
    + intros [Hc | Hc]; [discriminate | apply Hq; right; exact Hc].
    + intros _. apply Hq. left. reflexivity.
  - simpl. intros _. reflexivity.
  - simpl. exact Hq.
  - cbn [dispatch].
    pose proof (runFrame_cases updateIntensity render i s Hp) as (Hh & _ & _ & Hc).
    cbv zeta in Hh, Hc. rewrite Hh.
    destruct Hc as [[Ef Eh] | (Hhov & Hlt & Ef & _ & Eh)]; rewrite Ef, Eh; simpl.
    + exact Hq.
    + intros [Hc | [Hc | Hc]]; [congruence | lia |].
      unfold stepIntensity.
      assert (Hn : (frames s + 1 <? 5)%Z = false) by (apply Z.ltb_ge; lia).
      rewrite Hn. reflexivity.
Qed.

Lemma quietInv_run (es : list Event) :
  forall s : State Widget, counterInv s -> quietInv s -> quietInv (run es s).
Proof.
  induction es as [| e es IH]; intros s Hs Hq; [exact Hq|].
  rewrite run_cons. apply IH; [apply counterInv_dispatch, Hs|].
  apply quietInv_dispatch; assumption.
Qed.

(** In every state the widget reaches the glitch is off unless a ramp is
    under way: when the pointer is not over the widget, when the counter is
    still at 0, and once the counter has reached 5, [glitchIntensity] is 0. *)
Theorem quiet_outside_ramp (t0 t1 : Q) (es : list Event) :
  let s := run es (initial t0 t1) in
  isHovered s = false \/ frames s = 0%Z \/ (5 <= frames s)%Z ->
  glitchIntensity (host s) = 0.
Proof.
  intros s. apply (quietInv_run es (initial t0 t1) (counterInv_initial t0 t1)).
  intros _. reflexivity.
Qed.

Lemma quiet_outside_ramp_witness :
  (isHovered (run (Mouseover :: map AnimationFrame hoverFrames) (initial 0 0)) = false \/
   frames (run (Mouseover :: map AnimationFrame hoverFrames) (initial 0 0)) = 0%Z \/
   (5 <= frames (run (Mouseover :: map AnimationFrame hoverFrames) (initial 0 0)))%Z) /\
  glitchIntensity (host (run (Mouseover :: map AnimationFrame hoverFrames) (initial 0 0))) = 0.
Proof.
  assert (H : isHovered (run (Mouseover :: map AnimationFrame hoverFrames) (initial 0 0)) = false \/
              frames (run (Mouseover :: map AnimationFrame hoverFrames) (initial 0 0)) = 0%Z \/
              (5 <= frames (run (Mouseover :: map AnimationFrame hoverFrames) (initial 0 0)))%Z).
  { right. right. vm_compute. discriminate. }
  split; [exact H|].
  exact (quiet_outside_ramp 0 0 (Mouseover :: map AnimationFrame hoverFrames) H).
Defined.

Lemma hoverDuration_run (es : list Event) :
  forall s : State Widget,
  counterInv s -> 0 <= hoverDuration s < 50 -> clockOk (lastFrame s) es ->
  0 <= hoverDuration (run es s) < 50.
Proof.
  induction es as [| e es IH]; intros s Hs Hd Hc; [exact Hd|].
  rewrite run_cons.
  destruct e as [ | | | i]; cbn [clockOk] in Hc.
  - apply IH; [apply counterInv_dispatch, Hs | exact Hd | exact Hc].
  - apply IH; [apply counterInv_dispatch, Hs | exact Hd | exact Hc].
  - apply IH; [apply counterInv_dispatch, Hs | exact Hd | exact Hc].
  - destruct Hc as [Hnow Hrest].
    apply IH; [apply counterInv_dispatch, Hs | |].
    + cbn [dispatch]. apply runFrame_hoverDuration; [apply Hs | exact Hd | exact Hnow].
    + cbn [dispatch].
      pose proof (runFrame_cases updateIntensity render i s (proj2 Hs)) as (_ & _ & El & _).
      cbv zeta in El. rewrite El. exact Hrest.
Qed.

(** As long as the clock never runs backwards between frames, the
    accumulated time [hoverDuration] stays in [0, 50) in every state the
    widget reaches: it is consumed as soon as it reaches 50ms. *)
Theorem hoverDuration_bounded (t0 t1 : Q) (es : list Event) :
  clockOk t1 es ->
  0 <= hoverDuration (run es (initial t0 t1)) < 50.
Proof.
  intros Hc. apply hoverDuration_run.
  - apply counterInv_initial.
  - simpl. split; lra.
  - exact Hc.
Qed.

Lemma hoverDuration_bounded_witness :
  clockOk 0 [Mouseover; AnimationFrame (mkFrame 20 21 0); AnimationFrame (mkFrame 40 41 0)] /\
  0 <= hoverDuration
         (run [Mouseover; AnimationFrame (mkFrame 20 21 0); AnimationFrame (mkFrame 40 41 0)]
              (initial 0 0)) < 50.
Proof.
  assert (H : clockOk 0 [Mouseover; AnimationFrame (mkFrame 20 21 0);
                         AnimationFrame (mkFrame 40 41 0)]).
  { simpl. repeat split; lra. }
  split; [exact H | exact (hoverDuration_bounded 0 0 _ H)].
Defined.

End DriverMore.

(** ** The hover driver: listeners while hovered, leaving and re-entering *)

Section DriverOrder.
Import Driver.
Local Open Scope Q_scope.

Lemma runFrame_isHovered (i : FrameInput) (s : State Widget) :
  isHovered (runFrame updateIntensity render i s) = isHovered s.
Proof.
  destruct s as [h f hd lf p w]. unfold runFrame, animateScene. simpl.
  destruct p as [| p]; [reflexivity|]. simpl.
  destruct (h && (f <? 7)%Z); [|reflexivity].
  destruct (Qle_bool 50 (hd + (nowAccumulate i - lf))); reflexivity.
Qed.

Lemma sameButSwaps_frame (i : FrameInput) (s1 s2 : State Widget) :
  sameButSwaps s1 s2 ->
  sameButSwaps (dispatch (AnimationFrame i) s1) (dispatch (AnimationFrame i) s2).
Proof.
  destruct s1 as [h1 f1 hd1 l1 p1 [g1 w1 r1 x1]].
  destruct s2 as [h2 f2 hd2 l2 p2 [g2 w2 r2 x2]].
  unfold sameButSwaps. simpl.
  intros (-> & -> & -> & -> & -> & -> & -> & ->).
  unfold runFrame, animateScene. simpl.
  destruct p2 as [| p]; [repeat split|]. simpl.
  destruct (h2 && (f2 <? 7)%Z); [|repeat split].
  destruct (Qle_bool 50 (hd2 + (nowAccumulate i - l2))); repeat split.
Qed.

Lemma sameButSwaps_refresh (s1 s2 : State Widget) :
  isHovered s1 = true -> sameButSwaps s1 s2 ->
  sameButSwaps (dispatch Mouseover s1) s2 /\ sameButSwaps (dispatch Mouseleave s1) s2.
Proof.
  unfold sameButSwaps. intros Hh (H1 & H2 & H3 & H4 & H5 & H6 & H7 & H8).
  simpl. rewrite Hh. simpl. rewrite <- H1, Hh. repeat split; assumption.
Qed.

Lemma hovered_run_related (es : list Event) :
  forall s1 s2 : State Widget,
  isHovered s1 = true -> sameButSwaps s1 s2 ->
  Forall (fun e => e <> Mouseout) es ->
  sameButSwaps (run es s1) (run (filter isFrame es) s2).
Proof.
  induction es as [| e es IH]; intros s1 s2 Hh Hs Hes; [exact Hs|].
  inversion Hes as [| ? ? He Hrest]; subst.
  rewrite run_cons.
  destruct (sameButSwaps_refresh s1 s2 Hh Hs) as [Hover Hleave].
  destruct e as [ | | | i]; simpl filter.
  - apply IH; [simpl; reflexivity | exact Hover | exact Hrest].
  - congruence.
  - apply IH; [exact Hh | exact Hleave | exact Hrest].
  - rewrite run_cons. apply IH; [| apply sameButSwaps_frame, Hs | exact Hrest].
    cbn [dispatch]. rewrite runFrame_isHovered. exact Hh.
Qed.

(** While the pointer stays over the widget, further [mouseover] and
    [mouseleave] events do not disturb the ramp: with no [mouseout] among
    them, the events leave the counter, the accumulated time, the intensity
    and every value written exactly as the frames alone would; only the
    texture is swapped more often. *)
Theorem hovered_listeners_transparent (es : list Event) (s : State Widget) :
  isHovered s = true -> Forall (fun e => e <> Mouseout) es ->
  sameButSwaps (run es s) (run (filter isFrame es) s).
Proof.
  intros Hh Hes. apply hovered_run_related; [exact Hh | | exact Hes].
  unfold sameButSwaps. repeat split.
Qed.

Lemma hovered_listeners_transparent_witness :
  isHovered midRamp = true /\
  Forall (fun e => e <> Mouseout)
    [Mouseover; AnimationFrame (mkFrame 400 400 0); Mouseleave] /\
  sameButSwaps
    (run [Mouseover; AnimationFrame (mkFrame 400 400 0); Mouseleave] midRamp)
    (run (filter isFrame [Mouseover; AnimationFrame (mkFrame 400 400 0); Mouseleave])
         midRamp).
Proof.
  assert (H : Forall (fun e => e <> Mouseout)
                [Mouseover; AnimationFrame (mkFrame 400 400 0); Mouseleave])
    by (repeat constructor; discriminate).
  split; [reflexivity|]. split; [exact H|].
  exact (hovered_listeners_transparent _ midRamp eq_refl H).
Defined.

(** Leaving and re-entering restarts the ramp from any state, hovered or
    not, mid-ramp or settled: a [mouseout], a [mouseover] and five or more
    frames 50ms apart write 0, then four pulses, then zeros up to the
    seventh step, and leave the counter at 7 or at the number of frames. *)
Theorem leave_and_reenter_restarts (s0 : State Widget) (fs : list FrameInput) :
  pendingFrames s0 = 1%nat -> 0 <= hoverDuration s0 ->
  (5 <= List.length fs)%nat -> spaced (lastFrame s0) fs ->
  let s := run (Mouseout :: Mouseover :: map AnimationFrame fs) s0 in
  intensityWrites (host s) =
    intensityWrites (host s0) ++
    0 :: map pulse (firstn 4 fs) ++ repeat 0 (Nat.min (List.length fs) 7 - 4) /\
  frames s = Z.min 7 (Z.of_nat (List.length fs)) /\
  isHovered s = true /\ glitchIntensity (host s) = 0.
Proof.
  intros Hp Hd Hn Hsp s.
  set (s1 := dispatch Mouseover (dispatch Mouseout s0)).
  assert (Es : s = run (map AnimationFrame fs) s1) by reflexivity.
  destruct (run_due_frames fs s1) as (R1 & R2 & R3 & R4 & R5);
    try reflexivity; try (simpl; lia); try assumption.
  rewrite <- Es in R1, R2, R3, R4, R5.
  change (frames s1) with 0%Z in R3, R4, R5.
  rewrite (expectedWrites_ramp fs Hn) in R4, R5.
  split; [|split; [exact R3 | split; [exact R1|]]].
  - rewrite R4. simpl. rewrite <- app_assoc. reflexivity.
  - rewrite R5. apply last_app_repeat. lia.
Qed.

Lemma leave_and_reenter_restarts_witness :
  pendingFrames midRamp = 1%nat /\
  frames (run (Mouseout :: Mouseover ::
               map AnimationFrame
                 [mkFrame 400 400 0; mkFrame 500 500 0; mkFrame 600 600 0;
                  mkFrame 700 700 0; mkFrame 800 800 0]) midRamp) =
  Z.min 7 (Z.of_nat 5).
Proof.
  split; [reflexivity|].
  refine (proj1 (proj2
    (leave_and_reenter_restarts midRamp
       [mkFrame 400 400 0; mkFrame 500 500 0; mkFrame 600 600 0;
        mkFrame 700 700 0; mkFrame 800 800 0] eq_refl _ _ _))).
  - vm_compute. discriminate.
  - simpl. lia.
  - vm_compute. repeat split; discriminate.
Defined.

End DriverOrder.

(** ** The hover driver in double precision: the top of the pulse range and
    waiting frames *)

Section DoubleFacts.
Import PrimFloat.
Import Double.
Local Open Scope float_scope.

(** C9, the claim as stated fails: [1 - 2^-53] is a double in [0, 1), and
    with it for [Math.random()] the sum [Math.random() + 1] rounds to 2, so
    the first step of a hover writes exactly 1.0, which is not below 1. *)
Lemma intensity_reaches_one :
  let s := run [Mouseover; AnimationFrame (mkFrame 100 100 belowOne)] (initial 0 0) in
  (0 <=? belowOne) = true /\ (belowOne <? 1) = true /\
  intensityWrites (host s) = [1] /\
  glitchIntensity (host s) = 1 /\
  (glitchIntensity (host s) <? 1) = false.
Proof.
  cbv zeta. repeat split; vm_compute; reflexivity.
Qed.

(** A frame on which the test [hoverDuration >= 50] fails only adds its gap
    and renders. *)
Lemma runFrame_wait (i : FrameInput) (s : State) :
  pendingFrames s = 1%nat -> isHovered s = true -> (frames s < 7)%Z ->
  (50 <=? hoverDuration s + (nowAccumulate i - lastFrame s)) = false ->
  runFrame i s =
  mkState true (frames s) (hoverDuration s + (nowAccumulate i - lastFrame s))
    (nowEnd i) 1 (render (host s)).
Proof.
  destruct s as [h f hd lf p w]. cbn [pendingFrames isHovered frames hoverDuration lastFrame host].
  intros -> -> Hf Hw.
  unfold runFrame, animateScene.
  cbn [pendingFrames isHovered frames hoverDuration lastFrame host].
  apply Z.ltb_lt in Hf. rewrite Hf. cbn [andb]. rewrite Hw. reflexivity.
Qed.

(** While hovered and below 7, frames on each of which the code's test
    [hoverDuration >= 50] fails, evaluated in doubles as the code evaluates
    it, change neither the counter nor the intensity and write nothing: they
    add their gaps to [hoverDuration], with the code's rounding, and
    render. *)
Theorem waiting_frames_accumulate (fs : list FrameInput) :
  forall s : State,
  pendingFrames s = 1%nat -> isHovered s = true -> (frames s < 7)%Z ->
  waiting (hoverDuration s) (lastFrame s) fs ->
  let s' := run (map AnimationFrame fs) s in
  isHovered s' = true /\ pendingFrames s' = 1%nat /\ frames s' = frames s /\
  hoverDuration s' = accumulated (hoverDuration s) (lastFrame s) fs /\
  glitchIntensity (host s') = glitchIntensity (host s) /\
  intensityWrites (host s') = intensityWrites (host s) /\
  renderCount (host s') = (renderCount (host s) + List.length fs)%nat.
Proof.
  induction fs as [| i rest IH]; intros s Hp Hh Hf Hw.
  - cbn. repeat split; auto.
  - destruct Hw as [Hlt Hrest]. cbv zeta.
    change (run (map AnimationFrame (i :: rest)) s)
      with (run (map AnimationFrame rest) (runFrame i s)).
    rewrite (runFrame_wait i s Hp Hh Hf Hlt).
    set (s1 := mkState true (frames s) _ (nowEnd i) 1 _).
    destruct (IH s1) as (H1 & H2 & H3 & H4 & H5 & H6 & H7);
      try reflexivity; try exact Hf; try exact Hrest.
    repeat split; try assumption.
    rewrite H7. cbn [s1 host render renderCount List.length]. lia.
Qed.

Lemma waiting_frames_accumulate_witness :
  pendingFrames (dispatch Mouseover (initial 0 0)) = 1%nat /\
  hoverDuration
    (run (map AnimationFrame [mkFrame 16 17 0; mkFrame 33 34 0; mkFrame 50 51 0])
         (dispatch Mouseover (initial 0 0))) =
  accumulated 0 0 [mkFrame 16 17 0; mkFrame 33 34 0; mkFrame 50 51 0].
Proof.
  split; [reflexivity|].
  refine (proj1 (proj2 (proj2 (proj2
    (waiting_frames_accumulate [mkFrame 16 17 0; mkFrame 33 34 0; mkFrame 50 51 0]
       (dispatch Mouseover (initial 0 0)) eq_refl eq_refl _ _))))).
  - vm_compute. reflexivity.
  - vm_compute. repeat split; reflexivity.
Defined.

(** Rounding decides on which frame the step falls. With the clock readings
    23.2/23.3, 29.0/29.3 and 50.4 (the nearest doubles) the gaps add up to
    exactly 50 in doubles, though their exact sum is below 50: the first two
    frames wait and the third one steps and writes a pulse. *)
Lemma rounded_sum_reaches_50 :
  let f1 := mkFrame 0x1.7333333333333p+4 0x1.74ccccccccccdp+4 0 in
  let f2 := mkFrame 0x1.dp+4 0x1.d4ccccccccccdp+4 0 in
  let f3 := mkFrame 0x1.9333333333333p+5 0x1.9333333333333p+5 0 in
  let s0 := dispatch Mouseover (initial 0 0) in
  waiting (hoverDuration s0) (lastFrame s0) [f1; f2] /\
  frames (run (map AnimationFrame [f1; f2]) s0) = 0%Z /\
  frames (run (map AnimationFrame [f1; f2; f3]) s0) = 1%Z /\
  intensityWrites (host (run (map AnimationFrame [f1; f2; f3]) s0)) = [0.5].
Proof.
  cbv zeta. repeat split; vm_compute; reflexivity.
Qed.

End DoubleFacts.
